(** * BotTelegramZurich: the monitoring core of [main.py]

    A shallow embedding of the host registry, the debounce and alert state
    machine ([monitoreo_host]), the prober ([ping]), the persistence store
    ([guardar_hosts], [cargar_hosts]), the add and remove conversations and
    the commands of [manejar_mensaje] that start and stop monitoring loops.

    Python dictionaries are finite maps ([gmap]), Python integers are [Z],
    [time.time()] readings are seconds in [Z] (the code only subtracts two
    readings and compares the difference with the cooldown), and exceptions
    are explicit results. *)

From Stdlib Require Import ZArith Ascii String List Lia.
From stdpp Require Import base option gmap strings list fin_maps.

Local Open Scope string_scope.
Local Open Scope Z_scope.
Local Open Scope list_scope.

(** ** Text helpers: the [str] methods the handlers call *)

Module Texto.

(** ASCII white space removed by [str.strip()]: TAB, LF, VT, FF, CR, the
    separators 0x1c to 0x1f and the space.  Python also strips Unicode
    white space, which no address or button label contains. *)
Definition es_espacio (c : ascii) : bool :=
  let n := nat_of_ascii c in
  ((9 <=? n)%nat && (n <=? 13)%nat) || ((28 <=? n)%nat && (n <=? 32)%nat).

Fixpoint lstrip (s : string) : string :=
  match s with
  | String c s' => if es_espacio c then lstrip s' else s
  | EmptyString => EmptyString
  end.

(** [rstrip] drops the trailing white space: a character is kept when
    something other than white space follows it or it is not white space. *)
Fixpoint rstrip (s : string) : string :=
  match s with
  | EmptyString => EmptyString
  | String c s' =>
      match rstrip s' with
      | EmptyString => if es_espacio c then EmptyString else String c EmptyString
      | r => String c r
      end
  end.

Definition strip (s : string) : string := rstrip (lstrip s).

(** [str.lower()] on the ASCII letters; the bytes of a UTF-8 encoded
    symbol (the pictographs of the button labels) are left as they are. *)
Definition lower_ascii (c : ascii) : ascii :=
  let n := nat_of_ascii c in
  if ((65 <=? n)%nat && (n <=? 90)%nat) then ascii_of_nat (n + 32) else c.

Fixpoint lower (s : string) : string :=
  match s with
  | EmptyString => EmptyString
  | String c s' => String (lower_ascii c) (lower s')
  end.

(** [quitar_prefijo p s] is [Some r] when [s = p ++ r]. *)
Fixpoint quitar_prefijo (p s : string) : option string :=
  match p, s with
  | EmptyString, _ => Some s
  | String a p', String b s' =>
      if Ascii.eqb a b then quitar_prefijo p' s' else None
  | String _ _, EmptyString => None
  end.

(** [s.replace(old, "")] for a non-empty [old]: scanning from the left,
    every occurrence of [old] is dropped.  The fuel is the length of [s]. *)
Fixpoint quitar_fuel (fuel : nat) (old s : string) : string :=
  match fuel with
  | O => s
  | S fuel' =>
      match quitar_prefijo old s with
      | Some r => quitar_fuel fuel' old r
      | None =>
          match s with
          | EmptyString => EmptyString
          | String c s' => String c (quitar_fuel fuel' old s')
          end
      end
  end.

Definition quitar (old s : string) : string :=
  quitar_fuel (S (String.length s)) old s.

(** [s.split(sep)] for a one-character separator: never an empty list. *)
Fixpoint split (sep : ascii) (s : string) : list string :=
  match s with
  | EmptyString => [EmptyString]
  | String c s' =>
      if Ascii.eqb c sep then EmptyString :: split sep s'
      else match split sep s' with
           | p :: ps => String c p :: ps
           | [] => [String c EmptyString]
           end
  end.

Fixpoint contiene (c : ascii) (s : string) : bool :=
  match s with
  | EmptyString => false
  | String d s' => Ascii.eqb c d || contiene c s'
  end.

(** [sep.join(parts)] *)
Fixpoint join (sep : string) (parts : list string) : string :=
  match parts with
  | [] => EmptyString
  | [p] => p
  | p :: ps => p +:+ sep +:+ join sep ps
  end.

End Texto.

(** ** The [ipaddress] module of the Python standard library

    [ip_address] and [str] of its result, as far as the handlers use them:
    dotted-quad IPv4 literals and IPv6 literals of hexadecimal groups with
    one optional [::], an optional dotted-quad tail and an optional scope.
    [None] stands for the [ValueError] that [ipaddress.ip_address] raises.
    [str] prints an IPv6 address as its compressed lower-case groups. *)

Module Ipaddress.
Import Texto.

Inductive address :=
| IPv4Address (octetos : list Z)
| IPv6Address (hextetos : list Z) (scope_id : option string).

Definition version (a : address) : Z :=
  match a with IPv4Address _ => 4 | IPv6Address _ _ => 6 end.

Definition digito (c : ascii) : option Z :=
  let n := Z.of_nat (nat_of_ascii c) in
  if (48 <=? n) && (n <=? 57) then Some (n - 48) else None.

Definition digito_hex (c : ascii) : option Z :=
  let n := Z.of_nat (nat_of_ascii c) in
  if (48 <=? n) && (n <=? 57) then Some (n - 48)
  else if (97 <=? n) && (n <=? 102) then Some (n - 87)
  else if (65 <=? n) && (n <=? 70) then Some (n - 55)
  else None.

(** [int(s, base)] for a string of digits of that base. *)
Fixpoint entero (dig : ascii -> option Z) (base acc : Z) (s : string) : option Z :=
  match s with
  | EmptyString => Some acc
  | String c s' =>
      match dig c with
      | Some d => entero dig base (acc * base + d) s'
      | None => None
      end
  end.

(** [IPv4Address._parse_octet]: one to three ASCII digits, no leading zero
    unless the octet is ["0"], value at most 255. *)
Definition parse_octet (s : string) : option Z :=
  match s with
  | EmptyString => None
  | String c r =>
      if negb (String.length s <=? 3)%nat then None
      else if Ascii.eqb c "0" && negb (String.eqb s "0") then None
      else match entero digito 10 0 s with
           | Some n => if n <=? 255 then Some n else None
           | None => None
           end
  end.

Fixpoint mapM {A B} (f : A -> option B) (l : list A) : option (list B) :=
  match l with
  | [] => Some []
  | x :: l' =>
      match f x, mapM f l' with
      | Some y, Some ys => Some (y :: ys)
      | _, _ => None
      end
  end.

(** [IPv4Address(s)]: exactly four octets, no [/]. *)
Definition parse_ipv4 (s : string) : option (list Z) :=
  if contiene "/" s then None
  else let octetos := split "." s in
       if negb (length octetos =? 4)%nat then None
       else mapM parse_octet octetos.

(** [IPv6Address._parse_hextet]: one to four hexadecimal digits. *)
Definition parse_hextet (s : string) : option Z :=
  match s with
  | EmptyString => None
  | _ => if (String.length s <=? 4)%nat then entero digito_hex 16 0 s else None
  end.

Definition vacio (s : string) : bool := String.eqb s "".

(** Indices [1 .. len-2] of the empty parts: the places of a [::]. *)
Definition indices_vacios (parts : list string) : list nat :=
  filter (fun i => bool_decide (vacio (nth i parts "x") = true))
         (seq 1 (length parts - 2)).

(** [IPv6Address._ip_int_from_string] after the dotted tail has been
    rewritten: the groups before and after the [::] and the zeros between. *)
Definition parse_hextetos (parts : list string) : option (list Z) :=
  let n := length parts in
  if (n <? 3)%nat || (9 <? n)%nat then None
  else
    match indices_vacios parts with
    | [] =>
        if negb (n =? 8)%nat then None else mapM parse_hextet parts
    | [skip] =>
        let primero := vacio (nth 0 parts "x") in
        let ultimo := vacio (nth (n - 1) parts "x") in
        let hi0 := skip in
        let lo0 := (n - skip - 1)%nat in
        let hi := if primero then (hi0 - 1)%nat else hi0 in
        let lo := if ultimo then (lo0 - 1)%nat else lo0 in
        if primero && negb (hi =? 0)%nat then None
        else if ultimo && negb (lo =? 0)%nat then None
        else if (8 <=? hi + lo)%nat then None
        else
          match mapM parse_hextet (take hi parts),
                mapM parse_hextet (drop (n - lo) parts) with
          | Some altos, Some bajos =>
              Some (altos ++ repeat 0 (8 - (hi + lo)) ++ bajos)%list
          | _, _ => None
          end
    | _ => None
    end.

(** The dotted tail [a.b.c.d] of an IPv6 literal becomes two groups. *)
Definition expandir_cola (parts : list string) : option (list string + list string * list Z) :=
  match reverse parts with
  | [] => None
  | cola :: resto =>
      if contiene "." cola then
        match parse_ipv4 cola with
        | Some [a; b; c; d] => Some (inr (reverse resto, [a * 256 + b; c * 256 + d]))
        | _ => None
        end
      else Some (inl parts)
  end.

(** A parsed group value is re-parsed from its printed form in Python; here
    the two groups of the tail are spliced in after parsing the rest with
    two placeholder groups. *)
Definition parse_ipv6_sin_scope (s : string) : option (list Z) :=
  if vacio s then None
  else
    let parts := split ":" s in
    if (length parts <? 3)%nat then None
    else
      match expandir_cola parts with
      | None => None
      | Some (inl ps) => parse_hextetos ps
      | Some (inr (ps, cola)) =>
          match parse_hextetos (ps ++ ["0"; "0"])%list with
          | Some hs => Some (take 6 hs ++ cola)%list
          | None => None
          end
      end.

(** [IPv6Address._split_scope_id]: [s.partition("%")]. *)
Fixpoint partition_pct (s : string) : string * option string :=
  match s with
  | EmptyString => (EmptyString, None)
  | String c s' =>
      if Ascii.eqb c "%" then (EmptyString, Some s')
      else let '(a, sc) := partition_pct s' in (String c a, sc)
  end.

Definition parse_ipv6 (s : string) : option (list Z * option string) :=
  if contiene "/" s then None
  else
    let '(addr, sc) := partition_pct s in
    match sc with
    | Some sid =>
        if vacio sid || contiene "%" sid then None
        else option_map (fun hs => (hs, Some sid)) (parse_ipv6_sin_scope addr)
    | None => option_map (fun hs => (hs, None)) (parse_ipv6_sin_scope addr)
    end.

(** [ipaddress.ip_address]: first as IPv4, then as IPv6. *)
Definition ip_address (s : string) : option address :=
  match parse_ipv4 s with
  | Some os => Some (IPv4Address os)
  | None =>
      match parse_ipv6 s with
      | Some (hs, sc) => Some (IPv6Address hs sc)
      | None => None
      end
  end.

(** *** Printing *)

Definition cifra (d : Z) : ascii :=
  ascii_of_nat (Z.to_nat (if d <? 10 then 48 + d else 87 + d)).

(** ['%d' % n] for [0 <= n < 1000]. *)
Definition decimal (n : Z) : string :=
  let c := n / 100 in
  let d := (n / 10) mod 10 in
  let u := n mod 10 in
  if 0 <? c then String (cifra c) (String (cifra d) (String (cifra u) EmptyString))
  else if 0 <? d then String (cifra d) (String (cifra u) EmptyString)
  else String (cifra u) EmptyString.

(** ['%x' % n] for [0 <= n < 65536]. *)
Definition hexadecimal (n : Z) : string :=
  let a := n / 4096 in
  let b := (n / 256) mod 16 in
  let c := (n / 16) mod 16 in
  let d := n mod 16 in
  if 0 <? a then String (cifra a) (String (cifra b) (String (cifra c) (String (cifra d) EmptyString)))
  else if 0 <? b then String (cifra b) (String (cifra c) (String (cifra d) EmptyString))
  else if 0 <? c then String (cifra c) (String (cifra d) EmptyString)
  else String (cifra d) EmptyString.

(** The scan of [IPv6Address._compress_hextets]: the first longest run of
    zero groups, as (start, length), [best] being replaced only by a
    strictly longer run. *)
Fixpoint mejor_racha (hs : list Z) (index : nat) (actual best : nat * nat) : nat * nat :=
  match hs with
  | [] => best
  | h :: hs' =>
      if h =? 0 then
        let inicio := if (snd actual =? 0)%nat then index else fst actual in
        let act := (inicio, S (snd actual)) in
        mejor_racha hs' (S index) act (if (snd best <? snd act)%nat then act else best)
      else mejor_racha hs' (S index) (0%nat, 0%nat) best
  end.

Definition compress_hextets (hs : list Z) : list string :=
  let textos := map hexadecimal hs in
  let '(inicio, largo) := mejor_racha hs 0 (0%nat, 0%nat) (0%nat, 0%nat) in
  if (1 <? largo)%nat then
    let fin := (inicio + largo)%nat in
    let cola := if (fin =? length hs)%nat then [""] else drop fin textos in
    let cabeza := if (inicio =? 0)%nat then [""] else take inicio textos in
    (cabeza ++ [""] ++ cola)%list
  else textos.

Definition str (a : address) : string :=
  match a with
  | IPv4Address os => join "." (map decimal os)
  | IPv6Address hs sc =>
      let t := join ":" (compress_hextets hs) in
      match sc with
      | Some sid => t +:+ "%" +:+ sid
      | None => t
      end
  end.

End Ipaddress.

(** ** Exceptions

    The exception classes that reach the modelled code.  [TimeoutExpired]
    and [CalledProcessError] derive from [subprocess.SubprocessError];
    [FileNotFoundError] and [PermissionError] derive from [OSError]. *)

Inductive excepcion :=
| ValueError
| TimeoutExpired
| CalledProcessError
| FileNotFoundError
| PermissionError
| KeyError.

Inductive resultado (A : Type) :=
| Devuelve (a : A)
| Lanza (e : excepcion).
Arguments Devuelve {A} a.
Arguments Lanza {A} e.

(** ** Configuration *)

Definition ARCHIVO_PERSISTENCIA : string := "hosts_persistentes.json".
Definition ARCHIVO_RESPALDO : string := "hosts_persistentes_backup.json".
Definition INTERVALO_ALERTA_PERSISTENTE : Z := 600.
Definition MAX_FALLOS : Z := 5.

(** ** The prober *)

Module Prober.
Import Ipaddress.

(** What [subprocess.call(command, ...)] does: the child's exit status, or
    an exception raised while starting or waiting for the child. *)
Inductive llamada :=
| Termina (codigo : Z)
| Falla (e : excepcion).

(** The platform: [os.name] and the behaviour of [subprocess.call]. *)
Record entorno := {
  os_name : string;
  subprocess_call : list string -> llamada
}.

(** [except (subprocess.SubprocessError, ValueError)] *)
Definition capturada (e : excepcion) : bool :=
  match e with
  | ValueError | TimeoutExpired | CalledProcessError => true
  | FileNotFoundError | PermissionError | KeyError => false
  end.

Definition command (env : entorno) (espera ip : string) (ip_addr : address) : list string :=
  let param := if String.eqb (os_name env) "nt" then "-n" else "-c" in
  [if version ip_addr =? 6 then "ping6" else "ping"; param; "1"; "-w"; espera; ip].

Definition ping_con (espera : string) (env : entorno) (ip : string) : resultado bool :=
  match ip_address ip with
  | None => Devuelve false
  | Some ip_addr =>
      match subprocess_call env (command env espera ip ip_addr) with
      | Termina result => Devuelve (result =? 0)
      | Falla e => if capturada e then Devuelve false else Lanza e
      end
  end.

(** [ping] of [main.py] waits 2000 ms, the one of [main_alternative.py] 300. *)
Definition ping : entorno -> string -> resultado bool := ping_con "2000".
Definition ping_alternative : entorno -> string -> resultado bool := ping_con "300".

End Prober.

(** ** The registry *)

Record estado_host := {
  activo : bool;
  fallos : Z;
  ultima_alerta : Z
}.

(** [{"activo": True, "fallos": 0, "ultima_alerta": 0}] *)
Definition estado_nuevo : estado_host :=
  {| activo := true; fallos := 0; ultima_alerta := 0 |}.

Record estado_grupo := {
  grupo_activo : bool;
  estado_hosts : gmap string estado_host
}.

(** The three messages [monitoreo_host] puts on [alert_queue], by their
    heading and the group, name and address they are formatted with. *)
Inductive tipo_alerta := ALERTA | ALERTA_PERSISTENTE | RECUPERADO.

Record alerta := {
  tipo : tipo_alerta;
  alerta_grupo : string;
  alerta_nombre : string;
  alerta_ip : string
}.

#[global] Instance tipo_alerta_eq_dec : EqDecision tipo_alerta.
Proof. solve_decision. Defined.

(** The module-level state: the dictionaries [hosts] and [estados], the flag
    [monitoreo_global], the pending messages of [alert_queue] (oldest first)
    and one entry per running [monitoreo_grupo_thread], holding its group. *)
Record mundo := {
  hosts : gmap string (gmap string string);
  estados : gmap string estado_grupo;
  monitoreo_global : bool;
  alert_queue : list alerta;
  hilos : list string
}.

(** The tables imported from [hosts.py], a module that is not part of the
    sources at hand: any four address-to-name tables. *)
Record hosts_py := {
  hosts_cctv : gmap string string;
  hosts_servers : gmap string string;
  hosts_switches : gmap string string;
  hosts_corporativo : gmap string string
}.

Definition hosts_iniciales (t : hosts_py) : gmap string (gmap string string) :=
  <["cctv" := hosts_cctv t]>
    (<["servers" := hosts_servers t]>
       (<["switches" := hosts_switches t]>
          (<["corporativo" := hosts_corporativo t]> ∅))).

Definition estados_iniciales (h : gmap string (gmap string string)) : gmap string estado_grupo :=
  (fun datos_hosts : gmap string string =>
     {| grupo_activo := true;
        estado_hosts := (fun _ => estado_nuevo) <$> datos_hosts |}) <$> h.

Definition mundo_inicial (t : hosts_py) : mundo :=
  {| hosts := hosts_iniciales t;
     estados := estados_iniciales (hosts_iniciales t);
     monitoreo_global := false;
     alert_queue := [];
     hilos := [] |}.

Definition con_hosts (h : gmap string (gmap string string)) (w : mundo) : mundo :=
  {| hosts := h; estados := estados w; monitoreo_global := monitoreo_global w;
     alert_queue := alert_queue w; hilos := hilos w |}.

Definition con_estados (e : gmap string estado_grupo) (w : mundo) : mundo :=
  {| hosts := hosts w; estados := e; monitoreo_global := monitoreo_global w;
     alert_queue := alert_queue w; hilos := hilos w |}.

Definition con_global (b : bool) (w : mundo) : mundo :=
  {| hosts := hosts w; estados := estados w; monitoreo_global := b;
     alert_queue := alert_queue w; hilos := hilos w |}.

Definition con_alertas (q : list alerta) (w : mundo) : mundo :=
  {| hosts := hosts w; estados := estados w; monitoreo_global := monitoreo_global w;
     alert_queue := q; hilos := hilos w |}.

Definition con_hilos (l : list string) (w : mundo) : mundo :=
  {| hosts := hosts w; estados := estados w; monitoreo_global := monitoreo_global w;
     alert_queue := alert_queue w; hilos := l |}.

Definition con_estado_hosts (m : gmap string estado_host) (g : estado_grupo) : estado_grupo :=
  {| grupo_activo := grupo_activo g; estado_hosts := m |}.

(** [estados[grupo]["estado_hosts"][ip]] *)
Definition estado_de (w : mundo) (grupo ip : string) : option estado_host :=
  match estados w !! grupo with
  | Some g => estado_hosts g !! ip
  | None => None
  end.

(** [hosts[grupo]] as the set of its addresses, and those of [estados]. *)
Definition claves_hosts (w : mundo) (grupo : string) : option (gset string) :=
  dom <$> hosts w !! grupo.

Definition claves_estados (w : mundo) (grupo : string) : option (gset string) :=
  (fun g => dom (estado_hosts g)) <$> estados w !! grupo.

(** ** The debounce and alert state machine *)

Definition mensaje (t : tipo_alerta) (grupo nombre ip : string) : alerta :=
  {| tipo := t; alerta_grupo := grupo; alerta_nombre := nombre; alerta_ip := ip |}.

(** The body of the [with data_lock:] block of [monitoreo_host], on the
    entry of the host: the entry it leaves and the messages it enqueues. *)
Definition evaluar (estado_actual : bool) (current_time : Z)
    (ip nombre grupo : string) (e : estado_host) : estado_host * list alerta :=
  let estado_anterior := activo e in
  let ultima := ultima_alerta e in
  if negb estado_actual then
    let fallos1 := fallos e + 1 in
    if fallos1 >=? MAX_FALLOS then
      if estado_anterior then
        ({| activo := false; fallos := fallos1; ultima_alerta := current_time |},
         [mensaje ALERTA grupo nombre ip])
      else if current_time - ultima >=? INTERVALO_ALERTA_PERSISTENTE then
        ({| activo := estado_anterior; fallos := fallos1; ultima_alerta := current_time |},
         [mensaje ALERTA_PERSISTENTE grupo nombre ip])
      else
        ({| activo := estado_anterior; fallos := fallos1; ultima_alerta := ultima |}, [])
    else
      ({| activo := estado_anterior; fallos := fallos1; ultima_alerta := ultima |}, [])
  else
    if negb estado_anterior then
      ({| activo := true; fallos := 0; ultima_alerta := current_time |},
       [mensaje RECUPERADO grupo nombre ip])
    else
      ({| activo := estado_anterior; fallos := 0; ultima_alerta := ultima |}, []).

(** [monitoreo_host(ip, nombre, grupo)], given the result of [ping(ip)] and
    the reading of [time.time()].  The first subscript raises [KeyError]
    when the group or the address is not in [estados]; nothing has been
    written by then. *)
Definition monitoreo_host (estado_actual : bool) (current_time : Z)
    (ip nombre grupo : string) (w : mundo) : resultado mundo :=
  match estados w !! grupo with
  | None => Lanza KeyError
  | Some g =>
      match estado_hosts g !! ip with
      | None => Lanza KeyError
      | Some e =>
          let '(e', nuevas) := evaluar estado_actual current_time ip nombre grupo e in
          Devuelve
            (con_alertas (alert_queue w ++ nuevas)
               (con_estados
                  (<[grupo := con_estado_hosts (<[ip := e']> (estado_hosts g)) g]> (estados w))
                  w))
      end
  end.

(** Consecutive failed rounds of one host, at the given times. *)
Fixpoint rondas_fallidas (tiempos : list Z) (ip nombre grupo : string) (w : mundo)
    : resultado mundo :=
  match tiempos with
  | [] => Devuelve w
  | t :: ts =>
      match monitoreo_host false t ip nombre grupo w with
      | Devuelve w' => rondas_fallidas ts ip nombre grupo w'
      | Lanza e => Lanza e
      end
  end.

(** ** The persistence store *)

(** A file holds either the JSON document of a group-to-hosts dictionary,
    which [json.load] gives back as it was dumped, or text that
    [json.load] rejects with [JSONDecodeError]. *)
Inductive contenido :=
| JsonHosts (datos : gmap string (gmap string string))
| Ilegible (texto : string).

(** The files by path, and the writes in the order they are made. *)
Inductive escritura := Escribe (ruta : string) (c : contenido).

Record disco := {
  archivos : gmap string contenido;
  bitacora : list escritura
}.

Definition escribir (ruta : string) (c : contenido) (d : disco) : disco :=
  {| archivos := <[ruta := c]> (archivos d);
     bitacora := bitacora d ++ [Escribe ruta c] |}.

(** [guardar_hosts()]: the copy to the backup when the snapshot exists,
    then [json.dump(hosts, f)] over the snapshot. *)
Definition guardar_hosts (w : mundo) (d : disco) : disco :=
  let d1 :=
    match archivos d !! ARCHIVO_PERSISTENCIA with
    | Some previo => escribir ARCHIVO_RESPALDO previo d
    | None => d
    end in
  escribir ARCHIVO_PERSISTENCIA (JsonHosts (hosts w)) d1.

(** [hosts[grupo].update(datos[grupo])] for every group of [hosts] that is
    in [datos], and fresh entries for the same addresses in [estados]. *)
Definition fusionar (datos : gmap string (gmap string string)) (w : mundo) : mundo :=
  con_estados
    (map_imap
       (fun grupo g =>
          match hosts w !! grupo, datos !! grupo with
          | Some _, Some dg =>
              Some (con_estado_hosts (((fun _ => estado_nuevo) <$> dg) ∪ estado_hosts g) g)
          | _, _ => Some g
          end)
       (estados w))
    (con_hosts
       (map_imap
          (fun grupo hg =>
             match datos !! grupo with
             | Some dg => Some (dg ∪ hg)
             | None => Some hg
             end)
          (hosts w))
       w).

(** [cargar_hosts()]: a missing or unreadable snapshot leaves the tables of
    [hosts.py] as they are. *)
Definition cargar_hosts (w : mundo) (d : disco) : mundo :=
  match archivos d !! ARCHIVO_PERSISTENCIA with
  | Some (JsonHosts datos) => fusionar datos w
  | Some (Ilegible _) | None => w
  end.

(** The process start: the module-level tables, then [cargar_hosts()]. *)
Definition arranque (t : hosts_py) (d : disco) : mundo :=
  cargar_hosts (mundo_inicial t) d.

(** ** The add and remove conversations *)

Inductive conversacion :=
| GRUPO | IP | NOMBRE | CONFIRMAR_AGREGAR
| ELIMINAR_GRUPO | ELIMINAR_IP | CONFIRMAR_ELIMINAR
| END.

(** [context.user_data] *)
Record user_data := {
  ud_grupo : option string;
  ud_ip : option string;
  ud_nombre : option string
}.

(** The group key the handlers compute from a button label:
    [texto.lower().replace(...).replace(...).replace(...).replace(...).strip()] *)
Definition grupo_de_texto (texto : string) : string :=
  Texto.strip
    (Texto.quitar "🏢 "
       (Texto.quitar "🔌 "
          (Texto.quitar "💻 "
             (Texto.quitar "📷 " (Texto.lower texto))))).

(** A value of [user_data] that [all([...])] takes as true. *)
Definition verdadero (o : option string) : option string :=
  match o with
  | Some s => if String.eqb s "" then None else Some s
  | None => None
  end.

(** [recibir_grupo]: the text of the main menu ends the conversation, a
    text that is not a key of [hosts] asks again, a key is stored. *)
Definition recibir_grupo (mensaje_texto : string) (ud : user_data) (w : mundo)
    : conversacion * user_data :=
  let texto := grupo_de_texto mensaje_texto in
  if String.eqb texto "menú principal" then (END, ud)
  else
    match hosts w !! texto with
    | None => (GRUPO, ud)
    | Some _ =>
        (IP, {| ud_grupo := Some texto; ud_ip := ud_ip ud; ud_nombre := ud_nombre ud |})
    end.

(** [recibir_ip]: the [ValueError] of [ip_address] asks again; the test for
    a duplicate looks the entered text up, and the stored address is
    [str(ip_addr)].  A missing group makes [hosts[grupo]] raise. *)
Definition recibir_ip (mensaje_texto : string) (ud : user_data) (w : mundo)
    : resultado (conversacion * user_data) :=
  let ip := Texto.strip mensaje_texto in
  match Ipaddress.ip_address ip with
  | None => Devuelve (IP, ud)
  | Some ip_addr =>
      match ud_grupo ud ≫= fun grupo => hosts w !! grupo with
      | None => Lanza KeyError
      | Some hg =>
          match hg !! ip with
          | Some _ => Devuelve (IP, ud)
          | None =>
              Devuelve
                (NOMBRE,
                 {| ud_grupo := ud_grupo ud;
                    ud_ip := Some (Ipaddress.str ip_addr);
                    ud_nombre := ud_nombre ud |})
          end
      end
  end.

(** [recibir_nombre]: one to fifty characters after [strip].  The length
    is counted in bytes, which is the number of characters of an ASCII
    name. *)
Definition recibir_nombre (mensaje_texto : string) (ud : user_data)
    : conversacion * user_data :=
  let nombre := Texto.strip mensaje_texto in
  if String.eqb nombre "" || (50 <? String.length nombre)%nat then (NOMBRE, ud)
  else
    (CONFIRMAR_AGREGAR,
     {| ud_grupo := ud_grupo ud; ud_ip := ud_ip ud; ud_nombre := Some nombre |}).

(** The two assignments of [confirmar_agregar] under [data_lock].  A
    [KeyError] of the first leaves the tables as they are, one of the second
    leaves the first assignment in place; the handler's [except Exception]
    then ends the conversation. *)
Definition agregar (grupo ip nombre : string) (w : mundo) : resultado mundo :=
  match hosts w !! grupo with
  | None => Lanza KeyError
  | Some hg =>
      let w1 := con_hosts (<[grupo := <[ip := nombre]> hg]> (hosts w)) w in
      match estados w1 !! grupo with
      | None => Lanza KeyError
      | Some g =>
          Devuelve
            (con_estados
               (<[grupo := con_estado_hosts (<[ip := estado_nuevo]> (estado_hosts g)) g]>
                  (estados w1))
               w1)
      end
  end.

(** The state the tables are left in when [agregar] raises. *)
Definition agregar_parcial (grupo ip nombre : string) (w : mundo) : mundo :=
  match hosts w !! grupo with
  | None => w
  | Some hg => con_hosts (<[grupo := <[ip := nombre]> hg]> (hosts w)) w
  end.

Definition confirmar_agregar (texto : string) (ud : user_data) (w : mundo) (d : disco)
    : conversacion * mundo * disco :=
  if String.eqb texto "❌ Cancelar" then (END, w, d)
  else if String.eqb texto "✅ Confirmar" then
    match verdadero (ud_grupo ud), verdadero (ud_ip ud), verdadero (ud_nombre ud) with
    | Some grupo, Some ip, Some nombre =>
        match agregar grupo ip nombre w with
        | Devuelve w' => (END, w', guardar_hosts w' d)
        | Lanza _ => (END, agregar_parcial grupo ip nombre w, d)
        end
    | _, _, _ => (END, w, d)
    end
  else (CONFIRMAR_AGREGAR, w, d).

(** [recibir_ip_eliminar]: the address must be a key of the group. *)
Definition recibir_ip_eliminar (mensaje_texto : string) (ud : user_data) (w : mundo)
    : resultado (conversacion * user_data) :=
  let ip := Texto.strip mensaje_texto in
  match ud_grupo ud ≫= fun grupo => hosts w !! grupo with
  | None => Lanza KeyError
  | Some hg =>
      match hg !! ip with
      | None => Devuelve (ELIMINAR_IP, ud)
      | Some nombre =>
          Devuelve
            (CONFIRMAR_ELIMINAR,
             {| ud_grupo := ud_grupo ud; ud_ip := Some ip; ud_nombre := Some nombre |})
      end
  end.

(** The block of [confirmar_eliminar] under [data_lock]: [Devuelve None]
    is the branch that reports the address as not found and returns. *)
Definition eliminar (grupo ip : string) (w : mundo) : resultado (option mundo) :=
  match hosts w !! grupo with
  | None => Lanza KeyError
  | Some hg =>
      match hg !! ip with
      | None => Devuelve None
      | Some _ =>
          let w1 := con_hosts (<[grupo := delete ip hg]> (hosts w)) w in
          match estados w1 !! grupo with
          | None => Lanza KeyError
          | Some g =>
              match estado_hosts g !! ip with
              | None => Lanza KeyError
              | Some _ =>
                  Devuelve
                    (Some
                       (con_estados
                          (<[grupo := con_estado_hosts (delete ip (estado_hosts g)) g]>
                             (estados w1))
                          w1))
              end
          end
      end
  end.

(** The state the tables are left in when [eliminar] raises. *)
Definition eliminar_parcial (grupo ip : string) (w : mundo) : mundo :=
  match hosts w !! grupo with
  | None => w
  | Some hg =>
      match hg !! ip with
      | None => w
      | Some _ => con_hosts (<[grupo := delete ip hg]> (hosts w)) w
      end
  end.

Definition confirmar_eliminar (texto : string) (ud : user_data) (w : mundo) (d : disco)
    : conversacion * mundo * disco :=
  if String.eqb texto "❌ Cancelar" then (END, w, d)
  else if String.eqb texto "✅ Confirmar" then
    match verdadero (ud_grupo ud), verdadero (ud_ip ud), verdadero (ud_nombre ud) with
    | Some grupo, Some ip, Some _ =>
        match eliminar grupo ip w with
        | Devuelve (Some w') => (END, w', guardar_hosts w' d)
        | Devuelve None => (END, w, d)
        | Lanza _ => (END, eliminar_parcial grupo ip w, d)
        end
    | _, _, _ => (END, w, d)
    end
  else (CONFIRMAR_ELIMINAR, w, d).

(** ** Commands and monitoring loops *)

(** [threading.Thread(target=monitoreo_grupo_thread, ...).start()] *)
Definition lanzar_hilo (grupo : string) (w : mundo) : mundo :=
  con_hilos (hilos w ++ [grupo]) w.

(** The groups the loop of the start command launches a thread for:
    [for grupo in estados: if estados[grupo]["activo"]: ...] *)
Definition grupos_activos (e : gmap string estado_grupo) : list string :=
  (filter (fun p : string * estado_grupo => grupo_activo p.2 = true) (map_to_list e)).*1.

Definition es_boton_grupo (texto : string) : bool :=
  String.eqb texto "📷 CCTV" || String.eqb texto "💻 Servidores"
  || String.eqb texto "🔌 Switches" || String.eqb texto "🏢 Corporativo".

(** The branches of [manejar_mensaje] that write the monitored state, for
    a chat with a session: the start and stop commands and the group
    buttons.  Every other text leaves [hosts], [estados] and the threads as
    they are. *)
Definition manejar_mensaje (texto : string) (w : mundo) : resultado mundo :=
  if String.eqb texto "🟢 Iniciar todo" then
    let w1 := con_global true w in
    Devuelve (con_hilos (hilos w1 ++ grupos_activos (estados w1)) w1)
  else if String.eqb texto "🔴 Detener todo" then
    Devuelve (con_global false w)
  else if es_boton_grupo texto then
    let grupo := grupo_de_texto texto in
    match estados w !! grupo with
    | None => Lanza KeyError
    | Some g =>
        let g' := {| grupo_activo := negb (grupo_activo g);
                     estado_hosts := estado_hosts g |} in
        let w1 := con_estados (<[grupo := g']> (estados w)) w in
        if grupo_activo g' && monitoreo_global w1
        then Devuelve (lanzar_hilo grupo w1)
        else Devuelve w1
    end
  else Devuelve w.

(** The test at the head of the [while True] of [monitoreo_grupo_thread],
    made by the thread at position [i]: the thread ends when its group is
    off or the global flag is off, and goes on with a round otherwise. *)
Definition ronda (i : nat) (w : mundo) : mundo :=
  match hilos w !! i with
  | None => w
  | Some grupo =>
      match estados w !! grupo with
      | Some g =>
          if negb (grupo_activo g) || negb (monitoreo_global w)
          then con_hilos (delete i (hilos w)) w
          else w
      | None => con_hilos (delete i (hilos w)) w
      end
  end.

(** The number of running loops of a group. *)
Definition hilos_de (grupo : string) (w : mundo) : nat :=
  length (filter (fun g => g = grupo) (hilos w)).

(** ** The step relation of the running process *)

Inductive evento :=
| Mensaje (texto : string)
| Confirma_agregar (texto : string) (ud : user_data)
| Confirma_eliminar (texto : string) (ud : user_data)
| Sondeo (estado_actual : bool) (current_time : Z) (ip nombre grupo : string)
| Ronda (i : nat).

(** One handler call, one critical section of a worker or one loop test.
    An exception leaves the dictionaries as they were when it was raised.
    (A loop thread whose worker raised ends as well; the list of threads
    keeps it, so it bounds the running loops from above in that case.) *)
Definition paso (ev : evento) (s : mundo * disco) : mundo * disco :=
  match ev with
  | Mensaje texto =>
      match manejar_mensaje texto s.1 with
      | Devuelve w' => (w', s.2)
      | Lanza _ => s
      end
  | Confirma_agregar texto ud =>
      let '(_, w', d') := confirmar_agregar texto ud s.1 s.2 in (w', d')
  | Confirma_eliminar texto ud =>
      let '(_, w', d') := confirmar_eliminar texto ud s.1 s.2 in (w', d')
  | Sondeo estado_actual current_time ip nombre grupo =>
      match monitoreo_host estado_actual current_time ip nombre grupo s.1 with
      | Devuelve w' => (w', s.2)
      | Lanza _ => s
      end
  | Ronda i => (ronda i s.1, s.2)
  end.

Definition ejecutar (evs : list evento) (s : mundo * disco) : mundo * disco :=
  foldl (fun s' ev => paso ev s') s evs.

(** The states of a process started on the tables [t] and the disk [d0]. *)
Inductive alcanzable (t : hosts_py) (d0 : disco) : mundo * disco -> Prop :=
| alc_arranque : alcanzable t d0 (arranque t d0, d0)
| alc_paso ev s : alcanzable t d0 s -> alcanzable t d0 (paso ev s).

(** The key sets of [hosts] and of [estados] agree, group by group. *)
Definition claves_iguales (w : mundo) : Prop :=
  forall grupo, claves_hosts w grupo = claves_estados w grupo.

(** Where the entry of a host in [w'] comes from: it is fresh, or it is the
    entry of [w], or [monitoreo_host] computed it from the entry of [w]. *)
Definition procede (w w' : mundo) : Prop :=
  forall grupo ip e',
    estado_de w' grupo ip = Some e' ->
    e' = estado_nuevo
    \/ estado_de w grupo ip = Some e'
    \/ exists r t nombre e,
         estado_de w grupo ip = Some e /\ e' = (evaluar r t ip nombre grupo e).1.

(** The groups of [hosts] are those of the module-level dictionary. *)
Definition mismos_grupos (t : hosts_py) (w : mundo) : Prop :=
  forall grupo, is_Some (hosts w !! grupo) <-> is_Some (hosts_iniciales t !! grupo).

(** The test of the start command on an entry of [estados]. *)
Definition esta_activo (p : string * estado_grupo) : Prop := grupo_activo p.2 = true.

(** ** Sample data for the closed instances *)

Definition tablas_ejemplo : hosts_py :=
  {| hosts_cctv := {["192.168.1.10" := "Camara1"]};
     hosts_servers := {["10.0.0.1" := "Servidor1"]};
     hosts_switches := ∅;
     hosts_corporativo := {["2001:db8::1" := "Router"]} |}.

Definition disco_vacio : disco := {| archivos := ∅; bitacora := [] |}.

Definition estado_ejemplo : mundo * disco :=
  (arranque tablas_ejemplo disco_vacio, disco_vacio).

Definition fallo_servidor (t : Z) : evento :=
  Sondeo false t "10.0.0.1" "Servidor1" "servers".

(** Four failed rounds of the server: one below the threshold. *)
Definition cuatro_fallos : mundo * disco :=
  ejecutar [fallo_servidor 10; fallo_servidor 20; fallo_servidor 30; fallo_servidor 40]
    estado_ejemplo.

(** The fifth failed round: the server is down, alerted at 50. *)
Definition servidor_caido : mundo * disco :=
  ejecutar [fallo_servidor 50] cuatro_fallos.

(** The confirmed removal of the camera of the sample tables. *)
Definition eliminar_camara : evento :=
  Confirma_eliminar "✅ Confirmar"
    {| ud_grupo := Some "cctv"; ud_ip := Some "192.168.1.10"; ud_nombre := Some "Camara1" |}.

Definition sin_camara : mundo * disco := ejecutar [eliminar_camara] estado_ejemplo.

(** The start command, twice. *)
Definition dos_inicios : mundo * disco :=
  ejecutar [Mensaje "🟢 Iniciar todo"; Mensaje "🟢 Iniciar todo"] estado_ejemplo.

(** After it, each of the eight threads makes the test of its loop. *)
Definition dos_inicios_en_ronda : mundo * disco :=
  ejecutar (map Ronda (seq 0 8)) dos_inicios.

(** A disk that holds a snapshot. *)
Definition disco_guardado : disco := guardar_hosts estado_ejemplo.1 disco_vacio.

(** A platform without a [ping6] executable: starting it fails. *)
Definition sin_ping6 : Prober.entorno :=
  {| Prober.os_name := "posix";
     Prober.subprocess_call := fun command =>
       match command with
       | "ping6" :: _ => Prober.Falla FileNotFoundError
       | _ => Prober.Termina 0
       end |}.

(** The conversation state before the address of a corporate host is asked. *)
Definition ud_corporativo : user_data :=
  {| ud_grupo := Some "corporativo"; ud_ip := None; ud_nombre := None |}.

(** * Properties *)

(** ** The model on the scenarios of the specification *)

(** The group keys the handlers compute from the four group buttons: the
    second one is not a key of [hosts] or [estados]. *)
Example grupo_de_texto_botones :
  map grupo_de_texto ["📷 CCTV"; "💻 Servidores"; "🔌 Switches"; "🏢 Corporativo"]
  = ["cctv"; "servidores"; "switches"; "corporativo"].
Proof. reflexivity. Qed.

Example boton_servidores :
  manejar_mensaje "💻 Servidores" estado_ejemplo.1 = Lanza KeyError.
Proof. reflexivity. Qed.

(** [str(ipaddress.ip_address(s))] on some texts. *)
Example ip_address_formas :
  map (fun s => Ipaddress.str <$> Ipaddress.ip_address s)
    ["192.168.1.10"; "192.168.001.10"; "not-an-ip"; "2001:DB8::1";
     "0:0:0:0:0:0:0:1"; "1:0:0:2:0:0:0:3"; "::ffff:1.2.3.4"; "fe80::1%eth0"]
  = [Some "192.168.1.10"; None; None; Some "2001:db8::1";
     Some "::1"; Some "1:0:0:2::3"; Some "::ffff:102:304"; Some "fe80::1%eth0"].
Proof. vm_compute. reflexivity. Qed.

(** Five failed rounds, a sixth 100 seconds later, a seventh 650 seconds
    after the alert, then a success. *)
Example escenario_servidor :
  let s := ejecutar [fallo_servidor 150; fallo_servidor 700;
                     Sondeo true 800 "10.0.0.1" "Servidor1" "servers"] servidor_caido in
  map tipo (alert_queue servidor_caido.1) = [ALERTA]
  /\ map tipo (alert_queue s.1) = [ALERTA; ALERTA_PERSISTENTE; RECUPERADO]
  /\ estado_de s.1 "servers" "10.0.0.1"
     = Some {| activo := true; fallos := 0; ultima_alerta := 800 |}.
Proof. vm_compute. auto. Qed.

(** An address that is not one is refused before any write. *)
Example escenario_no_es_ip :
  recibir_ip "not-an-ip" ud_corporativo estado_ejemplo.1 = Devuelve (IP, ud_corporativo).
Proof. reflexivity. Qed.

(** ** [monitoreo_host] *)

Section Monitoreo.
Implicit Types (w : mundo) (e : estado_host) (ip nombre grupo : string).

Lemma estado_de_Some w grupo ip e :
  estado_de w grupo ip = Some e ->
  exists g, estados w !! grupo = Some g /\ estado_hosts g !! ip = Some e.
Proof.
  unfold estado_de. destruct (estados w !! grupo) as [g|]; [eauto | discriminate].
Qed.

(** A call on a host of the registry returns; it rewrites the entry of
    the host with [evaluar], appends its messages, and writes nothing
    else. *)
Lemma monitoreo_host_evaluar r t ip nombre grupo w e :
  estado_de w grupo ip = Some e ->
  exists w',
    monitoreo_host r t ip nombre grupo w = Devuelve w'
    /\ estado_de w' grupo ip = Some (evaluar r t ip nombre grupo e).1
    /\ alert_queue w' = alert_queue w ++ (evaluar r t ip nombre grupo e).2
    /\ hosts w' = hosts w
    /\ monitoreo_global w' = monitoreo_global w
    /\ hilos w' = hilos w.
Proof.
  intros (g & Hg & He)%estado_de_Some.
  unfold monitoreo_host. rewrite Hg, He.
  destruct (evaluar r t ip nombre grupo e) as [e' nuevas] eqn:Hev.
  eexists. split; [reflexivity |]. cbn.
  repeat split.
  unfold estado_de. cbn. rewrite lookup_insert_eq. cbn. apply lookup_insert_eq.
Qed.

Lemma monitoreo_host_inv r t ip nombre grupo w w' :
  monitoreo_host r t ip nombre grupo w = Devuelve w' ->
  exists e, estado_de w grupo ip = Some e
    /\ estado_de w' grupo ip = Some (evaluar r t ip nombre grupo e).1
    /\ alert_queue w' = alert_queue w ++ (evaluar r t ip nombre grupo e).2.
Proof.
  intros H.
  destruct (estado_de w grupo ip) as [e|] eqn:He.
  - destruct (monitoreo_host_evaluar r t ip nombre grupo w e He)
      as (w2 & Hw2 & ? & ? & _).
    rewrite Hw2 in H. injection H as <-. eauto.
  - unfold monitoreo_host, estado_de in *.
    destruct (estados w !! grupo) as [g|]; [| discriminate].
    rewrite He in H. discriminate.
Qed.

(** The cases of [evaluar]. *)
Lemma evaluar_fallo_umbral t ip nombre grupo e :
  activo e = true -> MAX_FALLOS <= fallos e + 1 ->
  evaluar false t ip nombre grupo e =
    ({| activo := false; fallos := fallos e + 1; ultima_alerta := t |},
     [mensaje ALERTA grupo nombre ip]).
Proof.
  intros Ha Hf. unfold evaluar. cbn. rewrite Ha.
  destruct (Z.geb_spec (fallos e + 1) MAX_FALLOS); [reflexivity | lia].
Qed.

Lemma evaluar_fallo_bajo t ip nombre grupo e :
  fallos e + 1 < MAX_FALLOS ->
  evaluar false t ip nombre grupo e =
    ({| activo := activo e; fallos := fallos e + 1; ultima_alerta := ultima_alerta e |}, []).
Proof.
  intros Hf. unfold evaluar. cbn.
  destruct (Z.geb_spec (fallos e + 1) MAX_FALLOS); [lia | reflexivity].
Qed.

Lemma evaluar_caido_persistente t ip nombre grupo e :
  activo e = false -> MAX_FALLOS <= fallos e + 1 ->
  INTERVALO_ALERTA_PERSISTENTE <= t - ultima_alerta e ->
  evaluar false t ip nombre grupo e =
    ({| activo := false; fallos := fallos e + 1; ultima_alerta := t |},
     [mensaje ALERTA_PERSISTENTE grupo nombre ip]).
Proof.
  intros Ha Hf Ht. unfold evaluar. cbn. rewrite Ha.
  destruct (Z.geb_spec (fallos e + 1) MAX_FALLOS); [| lia].
  destruct (Z.geb_spec (t - ultima_alerta e) INTERVALO_ALERTA_PERSISTENTE);
    [reflexivity | lia].
Qed.

Lemma evaluar_caido_silencio t ip nombre grupo e :
  activo e = false ->
  t - ultima_alerta e < INTERVALO_ALERTA_PERSISTENTE \/ fallos e + 1 < MAX_FALLOS ->
  evaluar false t ip nombre grupo e =
    ({| activo := false; fallos := fallos e + 1; ultima_alerta := ultima_alerta e |}, []).
Proof.
  intros Ha H. unfold evaluar. cbn. rewrite Ha.
  destruct (Z.geb_spec (fallos e + 1) MAX_FALLOS); [| reflexivity].
  destruct (Z.geb_spec (t - ultima_alerta e) INTERVALO_ALERTA_PERSISTENTE);
    [lia | reflexivity].
Qed.

Lemma evaluar_exito t ip nombre grupo e :
  evaluar true t ip nombre grupo e =
    if activo e
    then ({| activo := true; fallos := 0; ultima_alerta := ultima_alerta e |}, [])
    else ({| activo := true; fallos := 0; ultima_alerta := t |},
          [mensaje RECUPERADO grupo nombre ip]).
Proof. unfold evaluar. cbn. destruct (activo e); reflexivity. Qed.

(** A failed probe of a host that is down keeps it down and enqueues at
    most a persistent alert. *)
Lemma evaluar_caido_fallo t ip nombre grupo e :
  activo e = false ->
  activo (evaluar false t ip nombre grupo e).1 = false
  /\ Forall (fun a => tipo a = ALERTA_PERSISTENTE) (evaluar false t ip nombre grupo e).2.
Proof.
  intros Ha. unfold evaluar. cbn. rewrite Ha.
  destruct (fallos e + 1 >=? MAX_FALLOS); cbn; [| auto].
  destruct (t - ultima_alerta e >=? INTERVALO_ALERTA_PERSISTENTE); cbn; auto.
Qed.

Lemma rondas_fallidas_caido ts ip nombre grupo :
  forall w e,
    estado_de w grupo ip = Some e -> activo e = false ->
    exists w2 e2 extra,
      rondas_fallidas ts ip nombre grupo w = Devuelve w2
      /\ estado_de w2 grupo ip = Some e2
      /\ activo e2 = false
      /\ alert_queue w2 = alert_queue w ++ extra
      /\ Forall (fun a => tipo a = ALERTA_PERSISTENTE) extra.
Proof.
  induction ts as [|t ts IH]; intros w e He Ha.
  - exists w, e, []. cbn. rewrite app_nil_r. auto.
  - destruct (monitoreo_host_evaluar false t ip nombre grupo w e He)
      as (w1 & Hw1 & He1 & Hq1 & _).
    destruct (evaluar_caido_fallo t ip nombre grupo e Ha) as [Ha1 Hn1].
    destruct (IH w1 _ He1 Ha1) as (w2 & e2 & extra & Hr & He2 & Ha2 & Hq2 & Hn2).
    exists w2, e2, ((evaluar false t ip nombre grupo e).2 ++ extra).
    cbn. rewrite Hw1. repeat split; auto.
    + rewrite Hq2, Hq1, app_assoc. reflexivity.
    + apply Forall_app; auto.
Qed.

End Monitoreo.

(** ** The DOWN transition *)

(** C1. A host that is alive with [MAX_FALLOS - 1] failures goes down on one
    more failed probe and exactly one DOWN alert is enqueued; the failed
    probes that follow keep it down and enqueue no further DOWN alert; and a
    call that leaves an alive host with fewer than [MAX_FALLOS] failures
    enqueues nothing. *)
Theorem monitoreo_host_alerta_unica w grupo ip nombre e :
  estado_de w grupo ip = Some e ->
  activo e = true ->
  (fallos e = MAX_FALLOS - 1 ->
   forall t, exists w1 e1,
     monitoreo_host false t ip nombre grupo w = Devuelve w1
     /\ estado_de w1 grupo ip = Some e1
     /\ activo e1 = false
     /\ alert_queue w1 = alert_queue w ++ [mensaje ALERTA grupo nombre ip]
     /\ forall ts, exists w2 e2 extra,
          rondas_fallidas ts ip nombre grupo w1 = Devuelve w2
          /\ estado_de w2 grupo ip = Some e2
          /\ activo e2 = false
          /\ alert_queue w2 = alert_queue w1 ++ extra
          /\ Forall (fun a => tipo a <> ALERTA) extra)
  /\ (forall r t, exists w1 e1,
        monitoreo_host r t ip nombre grupo w = Devuelve w1
        /\ estado_de w1 grupo ip = Some e1
        /\ (fallos e1 < MAX_FALLOS -> alert_queue w1 = alert_queue w)).
Proof.
  intros He Ha. split.
  - intros Hf t.
    destruct (monitoreo_host_evaluar false t ip nombre grupo w e He)
      as (w1 & Hw1 & He1 & Hq1 & _).
    rewrite evaluar_fallo_umbral in He1, Hq1 by (auto; lia). cbn in He1, Hq1.
    exists w1; eexists. repeat split; eauto.
    intros ts.
    destruct (rondas_fallidas_caido ts ip nombre grupo w1 _ He1 eq_refl)
      as (w2 & e2 & extra & Hr & He2 & Ha2 & Hq2 & Hn).
    exists w2, e2, extra. repeat split; auto.
    eapply Forall_impl; [exact Hn |]. cbn. intros a ->. discriminate.
  - intros r t.
    destruct (monitoreo_host_evaluar r t ip nombre grupo w e He)
      as (w1 & Hw1 & He1 & Hq1 & _).
    exists w1; eexists. split; [exact Hw1 |]. split; [exact He1 |].
    intros Hlt. rewrite Hq1.
    destruct r.
    + rewrite evaluar_exito, Ha. cbn. apply app_nil_r.
    + destruct (Z_lt_le_dec (fallos e + 1) MAX_FALLOS) as [Hb | Hb].
      * rewrite evaluar_fallo_bajo by lia. cbn. apply app_nil_r.
      * rewrite evaluar_fallo_umbral in Hlt by auto. cbn in Hlt. lia.
Qed.

Lemma monitoreo_host_alerta_unica_witness :
  exists w1 e1,
    monitoreo_host false 50 "10.0.0.1" "Servidor1" "servers" cuatro_fallos.1 = Devuelve w1
    /\ estado_de w1 "servers" "10.0.0.1" = Some e1
    /\ activo e1 = false
    /\ alert_queue w1 =
         alert_queue cuatro_fallos.1 ++ [mensaje ALERTA "servers" "Servidor1" "10.0.0.1"].
Proof.
  destruct (monitoreo_host_alerta_unica cuatro_fallos.1 "servers" "10.0.0.1" "Servidor1"
              {| activo := true; fallos := 4; ultima_alerta := 0 |}
              eq_refl eq_refl) as [H _].
  destruct (H eq_refl 50) as (w1 & e1 & H1 & H2 & H3 & H4 & _).
  exists w1, e1. auto.
Defined.

(** ** Recovery *)

(** C3. A successful probe resets [fallos] to 0; for a host that was down it
    also sets [activo], stamps [ultima_alerta] with the time of the probe and
    enqueues exactly one RECOVERED alert; for a host that was alive it
    enqueues nothing and leaves [ultima_alerta] alone, whatever the count of
    failures was. *)
Theorem monitoreo_host_exito w grupo ip nombre e t :
  estado_de w grupo ip = Some e ->
  exists w1 e1,
    monitoreo_host true t ip nombre grupo w = Devuelve w1
    /\ estado_de w1 grupo ip = Some e1
    /\ fallos e1 = 0
    /\ activo e1 = true
    /\ (activo e = false ->
        ultima_alerta e1 = t
        /\ alert_queue w1 = alert_queue w ++ [mensaje RECUPERADO grupo nombre ip])
    /\ (activo e = true ->
        ultima_alerta e1 = ultima_alerta e
        /\ alert_queue w1 = alert_queue w).
Proof.
  intros He.
  destruct (monitoreo_host_evaluar true t ip nombre grupo w e He)
    as (w1 & Hw1 & He1 & Hq1 & _).
  rewrite evaluar_exito in He1, Hq1.
  exists w1; eexists. split; [exact Hw1 |]. split; [exact He1 |].
  destruct (activo e); cbn in *.
  - do 2 (split; [reflexivity |]). split; [discriminate |].
    intros _. split; [reflexivity |]. rewrite Hq1. apply app_nil_r.
  - do 2 (split; [reflexivity |]). split; [| discriminate].
    intros _. split; [reflexivity | exact Hq1].
Qed.

Lemma monitoreo_host_exito_witness :
  exists w1 e1,
    monitoreo_host true 800 "10.0.0.1" "Servidor1" "servers" servidor_caido.1 = Devuelve w1
    /\ estado_de w1 "servers" "10.0.0.1" = Some e1
    /\ fallos e1 = 0
    /\ activo e1 = true.
Proof.
  destruct (monitoreo_host_exito servidor_caido.1 "servers" "10.0.0.1" "Servidor1"
              {| activo := false; fallos := 5; ultima_alerta := 50 |} 800 eq_refl)
    as (w1 & e1 & H1 & H2 & H3 & H4 & _).
  exists w1, e1. auto.
Defined.

(** ** [ultima_alerta] and the queue *)

(** C8. A call either enqueues exactly one alert for the host and stamps
    [ultima_alerta] with the time of the call, or enqueues nothing and
    leaves [ultima_alerta] as it was. *)
Theorem monitoreo_host_ultima_alerta w grupo ip nombre e r t :
  estado_de w grupo ip = Some e ->
  exists w1 e1,
    monitoreo_host r t ip nombre grupo w = Devuelve w1
    /\ estado_de w1 grupo ip = Some e1
    /\ ((exists k, alert_queue w1 = alert_queue w ++ [mensaje k grupo nombre ip]
                   /\ ultima_alerta e1 = t)
        \/ (alert_queue w1 = alert_queue w
            /\ ultima_alerta e1 = ultima_alerta e)).
Proof.
  intros He.
  destruct (monitoreo_host_evaluar r t ip nombre grupo w e He)
    as (w1 & Hw1 & He1 & Hq1 & _).
  exists w1; eexists. split; [exact Hw1 |]. split; [exact He1 |].
  rewrite Hq1. unfold evaluar. cbn.
  destruct r; cbn.
  - destruct (activo e); cbn.
    + right. rewrite app_nil_r. auto.
    + left. eauto.
  - destruct (fallos e + 1 >=? MAX_FALLOS); cbn.
    + destruct (activo e); cbn.
      * left. eauto.
      * destruct (t - ultima_alerta e >=? INTERVALO_ALERTA_PERSISTENTE); cbn.
        -- left. eauto.
        -- right. rewrite app_nil_r. auto.
    + right. rewrite app_nil_r. auto.
Qed.

Lemma monitoreo_host_ultima_alerta_witness :
  exists w1 e1,
    monitoreo_host false 700 "10.0.0.1" "Servidor1" "servers" servidor_caido.1 = Devuelve w1
    /\ estado_de w1 "servers" "10.0.0.1" = Some e1.
Proof.
  destruct (monitoreo_host_ultima_alerta servidor_caido.1 "servers" "10.0.0.1" "Servidor1"
              {| activo := false; fallos := 5; ultima_alerta := 50 |} false 700 eq_refl)
    as (w1 & e1 & H1 & H2 & _).
  exists w1, e1. auto.
Defined.

(** ** Host entries along a run *)

Section Procedencia.
Implicit Types (w : mundo) (d : disco).

Lemma procede_refl w : procede w w.
Proof. intros g ip e H. auto. Qed.

Lemma procede_mismos_estados w w' : estados w' = estados w -> procede w w'.
Proof. intros H g ip e. unfold estado_de. rewrite H. auto. Qed.

Lemma estado_de_insert w grupo g grupo' ip :
  estado_de (con_estados (<[grupo := g]> (estados w)) w) grupo' ip =
  if decide (grupo = grupo') then estado_hosts g !! ip else estado_de w grupo' ip.
Proof.
  unfold estado_de. cbn. rewrite lookup_insert.
  destruct (decide (grupo = grupo')); reflexivity.
Qed.

Lemma procede_inicial t grupo ip e :
  estado_de (mundo_inicial t) grupo ip = Some e -> e = estado_nuevo.
Proof.
  unfold estado_de, mundo_inicial, estados_iniciales. cbn.
  rewrite lookup_fmap.
  destruct (hosts_iniciales t !! grupo) as [h|]; cbn; [| discriminate].
  rewrite lookup_fmap. destruct (h !! ip); cbn; congruence.
Qed.

Lemma procede_fusionar datos w : procede w (fusionar datos w).
Proof.
  intros grupo ip e'. unfold fusionar, estado_de. cbn.
  rewrite map_lookup_imap.
  destruct (estados w !! grupo) as [g|]; cbn; [| discriminate].
  destruct (hosts w !! grupo), (datos !! grupo) as [dg|]; cbn; auto.
  rewrite lookup_union_Some_raw, lookup_fmap.
  intros [H | [_ H]]; auto.
  destruct (dg !! ip); cbn in H; [left; congruence | discriminate].
Qed.

Lemma procede_monitoreo_host r t ip nombre grupo w w' :
  monitoreo_host r t ip nombre grupo w = Devuelve w' -> procede w w'.
Proof.
  unfold monitoreo_host.
  destruct (estados w !! grupo) as [g|] eqn:Hg; [| discriminate].
  destruct (estado_hosts g !! ip) as [e|] eqn:He; [| discriminate].
  destruct (evaluar r t ip nombre grupo e) as [e1 nuevas] eqn:Hev.
  intros [= <-] grupo' ip' e'.
  unfold estado_de at 1. cbn. rewrite lookup_insert.
  destruct (decide (grupo = grupo')) as [<- | Hne]; cbn.
  - rewrite lookup_insert. destruct (decide (ip = ip')) as [<- | Hni].
    + intros [= <-]. right; right. exists r, t, nombre, e.
      split; [unfold estado_de; rewrite Hg; exact He | rewrite Hev; reflexivity].
    + intros H. right; left. unfold estado_de. rewrite Hg. exact H.
  - intros H. right; left. exact H.
Qed.

Lemma procede_agregar grupo ip nombre w w' :
  agregar grupo ip nombre w = Devuelve w' -> procede w w'.
Proof.
  unfold agregar.
  destruct (hosts w !! grupo) as [hg|]; [| discriminate]. cbn.
  destruct (estados w !! grupo) as [g|] eqn:Hg; [| discriminate].
  intros [= <-] grupo' ip' e'.
  unfold estado_de at 1. cbn. rewrite lookup_insert.
  destruct (decide (grupo = grupo')) as [<- | Hne]; cbn.
  - rewrite lookup_insert. destruct (decide (ip = ip')) as [<- | Hni].
    + intros [= <-]. auto.
    + intros H. right; left. unfold estado_de. rewrite Hg. exact H.
  - intros H. right; left. exact H.
Qed.

Lemma procede_agregar_parcial grupo ip nombre w :
  procede w (agregar_parcial grupo ip nombre w).
Proof.
  apply procede_mismos_estados. unfold agregar_parcial.
  destruct (hosts w !! grupo); reflexivity.
Qed.

Lemma procede_eliminar grupo ip w w' :
  eliminar grupo ip w = Devuelve (Some w') -> procede w w'.
Proof.
  unfold eliminar.
  destruct (hosts w !! grupo) as [hg|]; [| discriminate].
  destruct (hg !! ip); [| discriminate]. cbn.
  destruct (estados w !! grupo) as [g|] eqn:Hg; [| discriminate].
  destruct (estado_hosts g !! ip); [| discriminate].
  intros [= <-] grupo' ip' e'.
  unfold estado_de at 1. cbn. rewrite lookup_insert.
  destruct (decide (grupo = grupo')) as [<- | Hne]; cbn.
  - rewrite lookup_delete. destruct (decide (ip = ip')) as [<- | Hni]; [discriminate |].
    intros H. right; left. unfold estado_de. rewrite Hg. exact H.
  - intros H. right; left. exact H.
Qed.

Lemma procede_eliminar_parcial grupo ip w :
  procede w (eliminar_parcial grupo ip w).
Proof.
  apply procede_mismos_estados. unfold eliminar_parcial.
  destruct (hosts w !! grupo) as [hg|]; [| reflexivity].
  destruct (hg !! ip); reflexivity.
Qed.

Lemma procede_confirmar_agregar texto ud w d :
  procede w (confirmar_agregar texto ud w d).1.2.
Proof.
  unfold confirmar_agregar.
  destruct (String.eqb texto _); [apply procede_refl |].
  destruct (String.eqb texto _); [| apply procede_refl].
  destruct (verdadero (ud_grupo ud)) as [grupo|]; [| apply procede_refl].
  destruct (verdadero (ud_ip ud)) as [ip|]; [| apply procede_refl].
  destruct (verdadero (ud_nombre ud)) as [nombre|]; [| apply procede_refl].
  destruct (agregar grupo ip nombre w) as [w'|] eqn:Hag; cbn.
  - eapply procede_agregar; eauto.
  - apply procede_agregar_parcial.
Qed.

Lemma procede_confirmar_eliminar texto ud w d :
  procede w (confirmar_eliminar texto ud w d).1.2.
Proof.
  unfold confirmar_eliminar.
  destruct (String.eqb texto _); [apply procede_refl |].
  destruct (String.eqb texto _); [| apply procede_refl].
  destruct (verdadero (ud_grupo ud)) as [grupo|]; [| apply procede_refl].
  destruct (verdadero (ud_ip ud)) as [ip|]; [| apply procede_refl].
  destruct (verdadero (ud_nombre ud)) as [nombre|]; [| apply procede_refl].
  destruct (eliminar grupo ip w) as [[w'|]|] eqn:Hel; cbn.
  - eapply procede_eliminar; eauto.
  - apply procede_refl.
  - apply procede_eliminar_parcial.
Qed.

Lemma procede_manejar_mensaje texto w w' :
  manejar_mensaje texto w = Devuelve w' -> procede w w'.
Proof.
  unfold manejar_mensaje.
  destruct (String.eqb texto _).
  { intros [= <-]. apply procede_mismos_estados. reflexivity. }
  destruct (String.eqb texto _).
  { intros [= <-]. apply procede_mismos_estados. reflexivity. }
  destruct (es_boton_grupo texto).
  2:{ intros [= <-]. apply procede_refl. }
  cbv zeta. generalize (grupo_de_texto texto) as grupo. intros grupo.
  destruct (estados w !! grupo) as [g|] eqn:Hg; [| discriminate].
  set (w1 := con_estados _ w).
  assert (Hw1 : procede w w1).
  { intros grupo' ip' e'. unfold w1. rewrite estado_de_insert. cbn.
    destruct (decide _) as [<- | Hne]; [| auto].
    intros H. right; left. unfold estado_de. rewrite Hg. exact H. }
  destruct (_ && _); intros [= <-]; [| exact Hw1].
  intros grupo' ip' e' H. apply Hw1. exact H.
Qed.

Lemma procede_ronda i w : procede w (ronda i w).
Proof.
  apply procede_mismos_estados. unfold ronda.
  destruct (hilos w !! i) as [grupo|]; [| reflexivity].
  destruct (estados w !! grupo) as [g|]; [| reflexivity].
  destruct (_ || _); reflexivity.
Qed.

Lemma procede_paso ev s : procede s.1 (paso ev s).1.
Proof.
  destruct s as [w d]. destruct ev as [texto | texto ud | texto ud | r t ip nombre grupo | i]; cbn.
  - destruct (manejar_mensaje texto w) as [w'|] eqn:H; cbn.
    + eapply procede_manejar_mensaje; eauto.
    + apply procede_refl.
  - pose proof (procede_confirmar_agregar texto ud w d) as H.
    destruct (confirmar_agregar texto ud w d) as [[c w'] d']. exact H.
  - pose proof (procede_confirmar_eliminar texto ud w d) as H.
    destruct (confirmar_eliminar texto ud w d) as [[c w'] d']. exact H.
  - destruct (monitoreo_host r t ip nombre grupo w) as [w'|] eqn:H; cbn.
    + eapply procede_monitoreo_host; eauto.
    + apply procede_refl.
  - apply procede_ronda.
Qed.

Section Invariante.
Variable P : estado_host -> Prop.
Hypothesis P_nuevo : P estado_nuevo.
Hypothesis P_evaluar :
  forall r t ip nombre grupo e, P e -> P (evaluar r t ip nombre grupo e).1.

Lemma alcanzable_estados t d0 s :
  alcanzable t d0 s ->
  forall grupo ip e, estado_de s.1 grupo ip = Some e -> P e.
Proof.
  induction 1 as [| ev s Hs IH]; intros grupo ip e He.
  - cbn in He. unfold arranque, cargar_hosts in He.
    assert (Hini : forall e0, estado_de (mundo_inicial t) grupo ip = Some e0 -> P e0).
    { intros e0 ->%procede_inicial. exact P_nuevo. }
    destruct (archivos d0 !! ARCHIVO_PERSISTENCIA) as [[datos | txt]|]; auto.
    apply procede_fusionar in He as [-> | [He | (r & tt & n & e0 & He & ->)]]; auto.
  - apply procede_paso in He as [-> | [He | (r & tt & n & e0 & He & ->)]]; eauto.
Qed.
End Invariante.

Lemma caido_desde_umbral t d0 s grupo ip e :
  alcanzable t d0 s -> estado_de s.1 grupo ip = Some e ->
  0 <= fallos e /\ (activo e = false -> MAX_FALLOS <= fallos e).
Proof.
  intros Hs. revert grupo ip e.
  apply (alcanzable_estados (fun e => 0 <= fallos e /\ (activo e = false -> MAX_FALLOS <= fallos e))) with (t := t) (d0 := d0); auto.
  - cbn. split; [lia | discriminate].
  - intros r tt ip nombre grupo e [H0 Hc]. unfold evaluar.
    destruct r; cbn.
    + destruct (activo e); cbn; split; try lia; discriminate.
    + destruct (Z.geb_spec (fallos e + 1) MAX_FALLOS); cbn.
      * destruct (activo e) eqn:Ha; cbn; [split; [lia | auto] |].
        destruct (_ >=? _); cbn; split; try lia; auto.
      * split; [lia |]. intros Ha. specialize (Hc Ha). lia.
Qed.

End Procedencia.

(** ** The persistent alert *)

(** C2. In a state of a run, a failed probe at [now] of a host that is down
    enqueues a PERSISTENT-DOWN alert if and only if
    [now - ultima_alerta >= INTERVALO_ALERTA_PERSISTENTE]; [ultima_alerta]
    becomes [now] when it does and stays as it was when it does not; and a
    second failed probe less than the interval after [now] brings the
    alerts of the two rounds to one at most. *)
Theorem monitoreo_host_alerta_persistente t0 d0 s grupo ip nombre e now :
  alcanzable t0 d0 s ->
  estado_de s.1 grupo ip = Some e ->
  activo e = false ->
  exists w1 e1,
    monitoreo_host false now ip nombre grupo s.1 = Devuelve w1
    /\ estado_de w1 grupo ip = Some e1
    /\ activo e1 = false
    /\ (alert_queue w1 = alert_queue s.1 ++ [mensaje ALERTA_PERSISTENTE grupo nombre ip]
        <-> INTERVALO_ALERTA_PERSISTENTE <= now - ultima_alerta e)
    /\ (alert_queue w1 = alert_queue s.1
        <-> now - ultima_alerta e < INTERVALO_ALERTA_PERSISTENTE)
    /\ (INTERVALO_ALERTA_PERSISTENTE <= now - ultima_alerta e -> ultima_alerta e1 = now)
    /\ (now - ultima_alerta e < INTERVALO_ALERTA_PERSISTENTE ->
        ultima_alerta e1 = ultima_alerta e)
    /\ forall now2,
         now2 - now < INTERVALO_ALERTA_PERSISTENTE ->
         exists w2 extra,
           monitoreo_host false now2 ip nombre grupo w1 = Devuelve w2
           /\ alert_queue w2 = alert_queue s.1 ++ extra
           /\ Forall (fun a => a = mensaje ALERTA_PERSISTENTE grupo nombre ip) extra
           /\ (length extra <= 1)%nat.
Proof.
  intros Hs He Ha.
  destruct (caido_desde_umbral t0 d0 s grupo ip e Hs He) as [H0 Hc].
  specialize (Hc Ha).
  destruct (monitoreo_host_evaluar false now ip nombre grupo s.1 e He)
    as (w1 & Hw1 & He1 & Hq1 & _).
  assert (Hnil : forall (q : list alerta) a, q <> q ++ [a]).
  { intros q a Hq. apply (f_equal length) in Hq. rewrite length_app in Hq.
    cbn in Hq. lia. }
  destruct (Z_lt_le_dec (now - ultima_alerta e) INTERVALO_ALERTA_PERSISTENTE)
    as [Hlt | Hge].
  - rewrite evaluar_caido_silencio in He1, Hq1 by auto. cbn in He1, Hq1.
    rewrite app_nil_r in Hq1.
    exists w1; eexists. split; [exact Hw1 |]. split; [exact He1 |].
    split; [reflexivity |]. cbn.
    split; [split; [intros Hq; rewrite Hq1 in Hq; destruct (Hnil _ _ Hq) | lia] |].
    split; [split; auto |].
    split; [lia |]. split; [reflexivity |].
    intros now2 Hn2.
    destruct (monitoreo_host_evaluar false now2 ip nombre grupo w1 _ He1)
      as (w2 & Hw2 & _ & Hq2 & _).
    exists w2; eexists. split; [exact Hw2 |]. split; [rewrite Hq2, Hq1; reflexivity |].
    destruct (Z_lt_le_dec (now2 - ultima_alerta e) INTERVALO_ALERTA_PERSISTENTE).
    + rewrite evaluar_caido_silencio by (cbn; auto). cbn. auto.
    + rewrite evaluar_caido_persistente by (cbn; auto; lia). cbn. auto.
  - rewrite evaluar_caido_persistente in He1, Hq1 by (auto; lia). cbn in He1, Hq1.
    exists w1; eexists. split; [exact Hw1 |]. split; [exact He1 |].
    split; [reflexivity |]. cbn.
    split; [split; auto |].
    split; [split; [intros Hq; rewrite Hq in Hq1; destruct (Hnil _ _ Hq1) | lia] |].
    split; [reflexivity |]. split; [lia |].
    intros now2 Hn2.
    destruct (monitoreo_host_evaluar false now2 ip nombre grupo w1 _ He1)
      as (w2 & Hw2 & _ & Hq2 & _).
    rewrite evaluar_caido_silencio in Hq2 by (cbn; auto). cbn in Hq2.
    rewrite app_nil_r in Hq2.
    exists w2; eexists. split; [exact Hw2 |]. split; [rewrite Hq2, Hq1; reflexivity |].
    cbn. auto.
Qed.

Lemma alcanzable_ejecutar t d0 evs :
  forall s, alcanzable t d0 s -> alcanzable t d0 (ejecutar evs s).
Proof.
  induction evs as [|ev evs IH]; intros s Hs; cbn; [exact Hs |].
  apply IH. constructor. exact Hs.
Qed.

Lemma monitoreo_host_alerta_persistente_witness :
  exists w1 e1,
    monitoreo_host false 700 "10.0.0.1" "Servidor1" "servers" servidor_caido.1 = Devuelve w1
    /\ estado_de w1 "servers" "10.0.0.1" = Some e1
    /\ activo e1 = false
    /\ ultima_alerta e1 = 700.
Proof.
  destruct (monitoreo_host_alerta_persistente tablas_ejemplo disco_vacio servidor_caido
              "servers" "10.0.0.1" "Servidor1"
              {| activo := false; fallos := 5; ultima_alerta := 50 |} 700)
    as (w1 & e1 & H1 & H2 & H3 & _ & _ & H4 & _).
  - unfold servidor_caido, cuatro_fallos.
    apply alcanzable_ejecutar, alcanzable_ejecutar. constructor.
  - reflexivity.
  - reflexivity.
  - exists w1, e1. repeat split; auto. apply H4. cbn. unfold INTERVALO_ALERTA_PERSISTENTE. lia.
Defined.

(** ** The key sets of [hosts] and [estados] *)

Section Claves.
Implicit Types (w : mundo) (d : disco).

Lemma claves_iguales_alt w :
  claves_iguales w <->
  forall grupo,
    match hosts w !! grupo, estados w !! grupo with
    | Some hg, Some g => dom hg = dom (estado_hosts g)
    | None, None => True
    | _, _ => False
    end.
Proof.
  unfold claves_iguales, claves_hosts, claves_estados.
  split; intros H grupo; specialize (H grupo);
    destruct (hosts w !! grupo), (estados w !! grupo); cbn in *;
      try congruence; try discriminate; try contradiction; auto.
Qed.

Lemma claves_iguales_inicial t : claves_iguales (mundo_inicial t).
Proof.
  intros grupo. unfold claves_hosts, claves_estados, mundo_inicial, estados_iniciales.
  cbn. rewrite lookup_fmap.
  destruct (hosts_iniciales t !! grupo) as [h|]; cbn; [| reflexivity].
  rewrite dom_fmap_L. reflexivity.
Qed.

Lemma claves_iguales_fusionar datos w :
  claves_iguales w -> claves_iguales (fusionar datos w).
Proof.
  rewrite !claves_iguales_alt. intros H grupo. specialize (H grupo).
  unfold fusionar. cbn. rewrite !map_lookup_imap.
  destruct (hosts w !! grupo) as [hg|], (estados w !! grupo) as [g|];
    cbn; try contradiction; auto.
  destruct (datos !! grupo) as [dg|]; cbn; auto.
  rewrite !dom_union_L, dom_fmap_L, H. reflexivity.
Qed.

Lemma claves_iguales_mismas w w' :
  hosts w' = hosts w ->
  (forall grupo, claves_estados w' grupo = claves_estados w grupo) ->
  claves_iguales w -> claves_iguales w'.
Proof.
  intros Hh He H grupo. unfold claves_hosts. rewrite Hh, He. apply H.
Qed.

Lemma claves_iguales_monitoreo_host r t ip nombre grupo w w' :
  monitoreo_host r t ip nombre grupo w = Devuelve w' ->
  claves_iguales w -> claves_iguales w'.
Proof.
  unfold monitoreo_host.
  destruct (estados w !! grupo) as [g|] eqn:Hg; [| discriminate].
  destruct (estado_hosts g !! ip) as [e|] eqn:He; [| discriminate].
  destruct (evaluar r t ip nombre grupo e) as [e1 nuevas].
  intros [= <-]. apply claves_iguales_mismas; [reflexivity |].
  intros grupo'. unfold claves_estados. cbn. rewrite lookup_insert.
  destruct (decide (grupo = grupo')) as [<- | Hne]; [| reflexivity].
  rewrite Hg. cbn. f_equal. apply dom_insert_lookup_L. eauto.
Qed.

Lemma claves_iguales_agregar grupo ip nombre w w' :
  agregar grupo ip nombre w = Devuelve w' ->
  claves_iguales w -> claves_iguales w'.
Proof.
  unfold agregar.
  destruct (hosts w !! grupo) as [hg|] eqn:Hh; [| discriminate]. cbn.
  destruct (estados w !! grupo) as [g|] eqn:Hg; [| discriminate].
  intros [= <-]. rewrite !claves_iguales_alt. intros H grupo'.
  specialize (H grupo'). cbn. rewrite !lookup_insert.
  destruct (decide (grupo = grupo')) as [<- | Hne]; [| exact H].
  rewrite Hh, Hg in H. cbn. rewrite !dom_insert_L, H. reflexivity.
Qed.

Lemma agregar_devuelve grupo ip nombre w e :
  claves_iguales w -> agregar grupo ip nombre w = Lanza e ->
  agregar_parcial grupo ip nombre w = w.
Proof.
  rewrite claves_iguales_alt. intros H. specialize (H grupo).
  unfold agregar, agregar_parcial.
  destruct (hosts w !! grupo) as [hg|]; [| reflexivity]. cbn.
  destruct (estados w !! grupo) as [g|]; [discriminate | contradiction].
Qed.

Lemma claves_iguales_eliminar grupo ip w w' :
  eliminar grupo ip w = Devuelve (Some w') ->
  claves_iguales w -> claves_iguales w'.
Proof.
  unfold eliminar.
  destruct (hosts w !! grupo) as [hg|] eqn:Hh; [| discriminate].
  destruct (hg !! ip); [| discriminate]. cbn.
  destruct (estados w !! grupo) as [g|] eqn:Hg; [| discriminate].
  destruct (estado_hosts g !! ip); [| discriminate].
  intros [= <-]. rewrite !claves_iguales_alt. intros H grupo'.
  specialize (H grupo'). cbn. rewrite !lookup_insert.
  destruct (decide (grupo = grupo')) as [<- | Hne]; [| exact H].
  rewrite Hh, Hg in H. cbn. rewrite !dom_delete_L, H. reflexivity.
Qed.

Lemma eliminar_devuelve grupo ip w e :
  claves_iguales w -> eliminar grupo ip w = Lanza e ->
  eliminar_parcial grupo ip w = w.
Proof.
  rewrite claves_iguales_alt. intros H. specialize (H grupo).
  unfold eliminar, eliminar_parcial.
  destruct (hosts w !! grupo) as [hg|]; [| reflexivity].
  destruct (hg !! ip) as [n|] eqn:Hip; [| reflexivity]. cbn.
  destruct (estados w !! grupo) as [g|]; [| contradiction].
  destruct (estado_hosts g !! ip) eqn:Hg; [discriminate |].
  apply not_elem_of_dom in Hg. rewrite <- H in Hg.
  destruct Hg. apply elem_of_dom. eauto.
Qed.

Lemma claves_iguales_confirmar_agregar texto ud w d :
  claves_iguales w -> claves_iguales (confirmar_agregar texto ud w d).1.2.
Proof.
  intros H. unfold confirmar_agregar.
  destruct (String.eqb texto _); [exact H |].
  destruct (String.eqb texto _); [| exact H].
  destruct (verdadero (ud_grupo ud)) as [grupo|]; [| exact H].
  destruct (verdadero (ud_ip ud)) as [ip|]; [| exact H].
  destruct (verdadero (ud_nombre ud)) as [nombre|]; [| exact H].
  destruct (agregar grupo ip nombre w) as [w'|e] eqn:Hag; cbn.
  - eapply claves_iguales_agregar; eauto.
  - erewrite agregar_devuelve; eauto.
Qed.

Lemma claves_iguales_confirmar_eliminar texto ud w d :
  claves_iguales w -> claves_iguales (confirmar_eliminar texto ud w d).1.2.
Proof.
  intros H. unfold confirmar_eliminar.
  destruct (String.eqb texto _); [exact H |].
  destruct (String.eqb texto _); [| exact H].
  destruct (verdadero (ud_grupo ud)) as [grupo|]; [| exact H].
  destruct (verdadero (ud_ip ud)) as [ip|]; [| exact H].
  destruct (verdadero (ud_nombre ud)) as [nombre|]; [| exact H].
  destruct (eliminar grupo ip w) as [[w'|]|e] eqn:Hel; cbn.
  - eapply claves_iguales_eliminar; eauto.
  - exact H.
  - erewrite eliminar_devuelve; eauto.
Qed.

Lemma claves_iguales_manejar_mensaje texto w w' :
  manejar_mensaje texto w = Devuelve w' ->
  claves_iguales w -> claves_iguales w'.
Proof.
  unfold manejar_mensaje.
  destruct (String.eqb texto _); [intros [= <-]; exact id |].
  destruct (String.eqb texto _); [intros [= <-]; exact id |].
  destruct (es_boton_grupo texto); [| intros [= <-]; exact id].
  cbv zeta. generalize (grupo_de_texto texto) as grupo. intros grupo.
  destruct (estados w !! grupo) as [g|] eqn:Hg; [| discriminate].
  assert (Hk : forall grupo',
    claves_estados
      (con_estados
         (<[grupo := {| grupo_activo := negb (grupo_activo g);
                        estado_hosts := estado_hosts g |}]> (estados w)) w) grupo'
    = claves_estados w grupo').
  { intros grupo'. unfold claves_estados. cbn. rewrite lookup_insert.
    destruct (decide (grupo = grupo')) as [<- | Hne]; [| reflexivity].
    rewrite Hg. reflexivity. }
  destruct (_ && _); intros [= <-]; apply claves_iguales_mismas; auto.
Qed.

Lemma claves_iguales_ronda i w : claves_iguales w -> claves_iguales (ronda i w).
Proof.
  unfold ronda.
  destruct (hilos w !! i) as [grupo|]; [| exact id].
  destruct (estados w !! grupo) as [g|]; [| exact id].
  destruct (_ || _); exact id.
Qed.

Lemma claves_iguales_paso ev s : claves_iguales s.1 -> claves_iguales (paso ev s).1.
Proof.
  destruct s as [w d]. intros H.
  destruct ev as [texto | texto ud | texto ud | r t ip nombre grupo | i]; cbn in *.
  - destruct (manejar_mensaje texto w) as [w'|] eqn:Hm; cbn; [| exact H].
    eapply claves_iguales_manejar_mensaje; eauto.
  - pose proof (claves_iguales_confirmar_agregar texto ud w d H) as H'.
    destruct (confirmar_agregar texto ud w d) as [[c w'] d']. exact H'.
  - pose proof (claves_iguales_confirmar_eliminar texto ud w d H) as H'.
    destruct (confirmar_eliminar texto ud w d) as [[c w'] d']. exact H'.
  - destruct (monitoreo_host r t ip nombre grupo w) as [w'|] eqn:Hm; cbn; [| exact H].
    eapply claves_iguales_monitoreo_host; eauto.
  - apply claves_iguales_ronda. exact H.
Qed.

Lemma claves_iguales_arranque t d : claves_iguales (arranque t d).
Proof.
  unfold arranque, cargar_hosts.
  destruct (archivos d !! ARCHIVO_PERSISTENCIA) as [[datos | txt]|];
    [apply claves_iguales_fusionar | |]; apply claves_iguales_inicial.
Qed.

End Claves.

Lemma alcanzable_claves_iguales t d0 s :
  alcanzable t d0 s -> claves_iguales s.1.
Proof.
  induction 1 as [| ev s Hs IH].
  - apply claves_iguales_arranque.
  - apply claves_iguales_paso. exact IH.
Qed.

(** C7. The key sets of [hosts] and of [estados] agree for every group:
    in the module-level tables, after [cargar_hosts], after the handlers
    that add and remove a host, and so in every state of a run. *)
Theorem claves_iguales_siempre :
  (forall t, claves_iguales (mundo_inicial t))
  /\ (forall w d, claves_iguales w -> claves_iguales (cargar_hosts w d))
  /\ (forall texto ud w d,
        claves_iguales w -> claves_iguales (confirmar_agregar texto ud w d).1.2)
  /\ (forall texto ud w d,
        claves_iguales w -> claves_iguales (confirmar_eliminar texto ud w d).1.2)
  /\ (forall t d0 s, alcanzable t d0 s -> claves_iguales s.1).
Proof.
  split; [exact claves_iguales_inicial |].
  split.
  { intros w d H. unfold cargar_hosts.
    destruct (archivos d !! ARCHIVO_PERSISTENCIA) as [[datos | txt]|]; auto.
    apply claves_iguales_fusionar. exact H. }
  split; [intros; apply claves_iguales_confirmar_agregar; assumption |].
  split; [intros; apply claves_iguales_confirmar_eliminar; assumption |].
  exact alcanzable_claves_iguales.
Qed.

Lemma claves_iguales_siempre_witness : claves_iguales sin_camara.1.
Proof.
  destruct claves_iguales_siempre as (_ & _ & _ & _ & H).
  apply (H tablas_ejemplo disco_vacio sin_camara).
  apply alcanzable_ejecutar. constructor.
Defined.

(** ** Save, then load *)

Section Grupos.
Implicit Types (w : mundo) (d : disco).

Lemma hosts_fusionar datos w grupo :
  hosts (fusionar datos w) !! grupo =
  (fun hg => match datos !! grupo with Some dg => dg ∪ hg | None => hg end)
    <$> hosts w !! grupo.
Proof.
  unfold fusionar. cbn. rewrite map_lookup_imap.
  destruct (hosts w !! grupo); cbn; [| reflexivity].
  destruct (datos !! grupo); reflexivity.
Qed.

Lemma grupos_paso ev s grupo :
  is_Some (hosts (paso ev s).1 !! grupo) <-> is_Some (hosts s.1 !! grupo).
Proof.
  destruct s as [w d].
  destruct ev as [texto | texto ud | texto ud | r t ip nombre g | i]; cbn.
  - unfold manejar_mensaje.
    destruct (String.eqb texto _); [reflexivity |].
    destruct (String.eqb texto _); [reflexivity |].
    destruct (es_boton_grupo texto); [| reflexivity].
    cbv zeta. generalize (grupo_de_texto texto) as g. intros g.
    destruct (estados w !! g); [| reflexivity].
    destruct (_ && _); reflexivity.
  - unfold confirmar_agregar.
    destruct (String.eqb texto _); [reflexivity |].
    destruct (String.eqb texto _); [| reflexivity].
    destruct (verdadero (ud_grupo ud)) as [g|]; [| reflexivity].
    destruct (verdadero (ud_ip ud)) as [ip|]; [| reflexivity].
    destruct (verdadero (ud_nombre ud)) as [nombre|]; [| reflexivity].
    unfold agregar, agregar_parcial.
    destruct (hosts w !! g) as [hg|] eqn:Hh; [| reflexivity]. cbn.
    destruct (estados w !! g); cbn; rewrite lookup_insert;
      (destruct (decide (g = grupo)) as [<- | Hne]; [| reflexivity]);
      rewrite Hh; split; eauto.
  - unfold confirmar_eliminar.
    destruct (String.eqb texto _); [reflexivity |].
    destruct (String.eqb texto _); [| reflexivity].
    destruct (verdadero (ud_grupo ud)) as [g|]; [| reflexivity].
    destruct (verdadero (ud_ip ud)) as [ip|]; [| reflexivity].
    destruct (verdadero (ud_nombre ud)) as [nombre|]; [| reflexivity].
    unfold eliminar, eliminar_parcial.
    destruct (hosts w !! g) as [hg|] eqn:Hh; [| reflexivity].
    destruct (hg !! ip); [| reflexivity]. cbn.
    destruct (estados w !! g) as [eg|]; cbn.
    + destruct (estado_hosts eg !! ip); cbn; rewrite lookup_insert;
        (destruct (decide (g = grupo)) as [<- | Hne]; [| reflexivity]);
        rewrite Hh; split; eauto.
    + rewrite lookup_insert.
      destruct (decide (g = grupo)) as [<- | Hne]; [| reflexivity].
      rewrite Hh; split; eauto.
  - unfold monitoreo_host.
    destruct (estados w !! g) as [eg|]; [| reflexivity].
    destruct (estado_hosts eg !! ip) as [e|]; [| reflexivity].
    destruct (evaluar r t ip nombre g e). reflexivity.
  - unfold ronda.
    destruct (hilos w !! i) as [g|]; [| reflexivity].
    destruct (estados w !! g); [| reflexivity].
    destruct (_ || _); reflexivity.
Qed.

Lemma alcanzable_mismos_grupos t d0 s :
  alcanzable t d0 s -> mismos_grupos t s.1.
Proof.
  induction 1 as [| ev s Hs IH]; intros grupo.
  - cbn. unfold arranque, cargar_hosts.
    destruct (archivos d0 !! ARCHIVO_PERSISTENCIA) as [[datos | txt]|]; try reflexivity.
    rewrite hosts_fusionar. cbn.
    destruct (hosts_iniciales t !! grupo); cbn; split; eauto.
  - rewrite grupos_paso. apply IH.
Qed.

End Grupos.

(** C5, as amended.  In a state of a run in which every group still holds
    every address of its table of [hosts.py], [guardar_hosts] followed by
    the start of a new process gives back the address-to-name map that was
    saved. *)
Theorem guardar_cargar t d0 s :
  alcanzable t d0 s ->
  (forall grupo ig hg,
     hosts_iniciales t !! grupo = Some ig -> hosts s.1 !! grupo = Some hg ->
     dom ig ⊆ dom hg) ->
  hosts (arranque t (guardar_hosts s.1 s.2)) = hosts s.1.
Proof.
  intros Hs Hsub. apply map_eq. intros grupo.
  pose proof (alcanzable_mismos_grupos t d0 s Hs grupo) as Hg.
  unfold arranque, cargar_hosts, guardar_hosts, escribir. cbn.
  rewrite lookup_insert_eq. rewrite hosts_fusionar. cbn.
  destruct (hosts s.1 !! grupo) as [hg|] eqn:Hh.
  - destruct (proj1 Hg) as [ig Hi]; [eauto |]. rewrite Hi. cbn. f_equal.
    apply map_eq. intros ip. rewrite lookup_union.
    destruct (hg !! ip) as [n|] eqn:Hn; cbn.
    + destruct (ig !! ip); reflexivity.
    + destruct (ig !! ip) as [m|] eqn:Hm; [| reflexivity].
      exfalso. apply not_elem_of_dom in Hn. apply Hn.
      apply (Hsub grupo ig hg Hi Hh). apply elem_of_dom. eauto.
  - destruct (hosts_iniciales t !! grupo) as [ig|] eqn:Hi; [| reflexivity].
    destruct (proj2 Hg) as [x Hx]; [eauto | discriminate].
Qed.

Lemma guardar_cargar_witness :
  hosts (arranque tablas_ejemplo (guardar_hosts servidor_caido.1 servidor_caido.2))
  = hosts servidor_caido.1.
Proof.
  apply (guardar_cargar tablas_ejemplo disco_vacio servidor_caido).
  - unfold servidor_caido, cuatro_fallos.
    do 2 apply alcanzable_ejecutar. constructor.
  - intros grupo ig hg Hi Hh.
    change (hosts servidor_caido.1) with (hosts_iniciales tablas_ejemplo) in Hh.
    rewrite Hi in Hh. injection Hh as <-. reflexivity.
Defined.

(** C5 as stated fails: a host of the tables of [hosts.py] that was removed
    before the save is back after the load. *)
Lemma guardar_cargar_contraejemplo :
  ~ (forall t d0 s,
       alcanzable t d0 s ->
       hosts (arranque t (guardar_hosts s.1 s.2)) = hosts s.1).
Proof.
  intros H.
  specialize (H tablas_ejemplo disco_vacio sin_camara).
  assert (Hs : alcanzable tablas_ejemplo disco_vacio sin_camara).
  { apply alcanzable_ejecutar. constructor. }
  specialize (H Hs).
  apply (f_equal (fun h => h !! "cctv" ≫= fun hg => hg !! "192.168.1.10")) in H.
  vm_compute in H. discriminate.
Qed.

(** ** Monitoring loops *)

Section Hilos.
Implicit Types (w : mundo) (e : gmap string estado_grupo).

Lemma filtro_vacio {A} (P : A -> Prop) `{forall x, Decision (P x)} (l : list A) :
  (forall x, x ∈ l -> ~ P x) -> length (filter P l) = 0%nat.
Proof.
  intros Hno. destruct (filter P l) as [|a l'] eqn:Hf; [reflexivity |].
  assert (Ha : a ∈ filter P l) by (rewrite Hf; left).
  apply list_elem_of_filter in Ha as [HP Ha]. destruct (Hno a Ha HP).
Qed.

Lemma contar_uno (l : list (string * estado_grupo)) grupo g :
  NoDup l.*1 -> (grupo, g) ∈ l -> grupo_activo g = true ->
  length (filter (fun x => x = grupo) (filter esta_activo l).*1) = 1%nat.
Proof.
  induction l as [|[k v] l IH]; intros Hnd Hin Ha.
  - inversion Hin.
  - cbn in Hnd. apply NoDup_cons in Hnd as [Hk Hnd].
    apply elem_of_cons in Hin as [[= <- <-] | Hin].
    + rewrite filter_cons_True by exact Ha. rewrite fmap_cons. cbn [fst].
      rewrite filter_cons_True by reflexivity. cbn [length]. f_equal.
      apply filtro_vacio. intros x Hx ->. apply Hk.
      apply list_elem_of_fmap in Hx as ([k' v'] & -> & [_ Hx]%list_elem_of_filter).
      apply list_elem_of_fmap. exists (k', v'). auto.
    + assert (k <> grupo).
      { intros ->. apply Hk. apply list_elem_of_fmap. exists (grupo, g). auto. }
      rewrite filter_cons. destruct (decide (esta_activo (k, v))).
      * rewrite fmap_cons. cbn [fst]. rewrite filter_cons_False by auto. apply IH; auto.
      * apply IH; auto.
Qed.

Lemma contar_cero (l : list (string * estado_grupo)) grupo :
  (forall g, (grupo, g) ∈ l -> grupo_activo g = false) ->
  length (filter (fun x => x = grupo) (filter esta_activo l).*1) = 0%nat.
Proof.
  intros H. apply filtro_vacio. intros x Hx ->.
  apply list_elem_of_fmap in Hx as ([k v] & Hk & [Ha Hx]%list_elem_of_filter).
  cbn in Hk. subst k. unfold esta_activo in Ha. cbn in Ha.
  rewrite (H v Hx) in Ha. discriminate.
Qed.

Lemma contar_grupos_activos e grupo :
  length (filter (fun x => x = grupo) (grupos_activos e)) =
  match e !! grupo with
  | Some g => if grupo_activo g then 1%nat else 0%nat
  | None => 0%nat
  end.
Proof.
  unfold grupos_activos. fold esta_activo.
  destruct (e !! grupo) as [g|] eqn:Hg.
  - destruct (grupo_activo g) eqn:Ha.
    + apply (contar_uno _ grupo g); auto.
      * apply NoDup_fst_map_to_list.
      * apply elem_of_map_to_list. exact Hg.
    + apply contar_cero. intros g' Hin%elem_of_map_to_list. congruence.
  - apply contar_cero. intros g' Hin%elem_of_map_to_list. congruence.
Qed.

End Hilos.

(** C6, as amended.  The start command launches one more loop for every
    group that is on, and a group button launches one more loop for its
    group when it turns the group on while the global flag is set; neither
    looks at the loops that are already running. *)
Theorem manejar_mensaje_lanza_hilos w grupo g :
  estados w !! grupo = Some g ->
  (exists w',
     manejar_mensaje "🟢 Iniciar todo" w = Devuelve w'
     /\ monitoreo_global w' = true
     /\ hilos_de grupo w' = (hilos_de grupo w + if grupo_activo g then 1 else 0)%nat)
  /\ (forall texto,
        es_boton_grupo texto = true -> grupo_de_texto texto = grupo ->
        exists w',
          manejar_mensaje texto w = Devuelve w'
          /\ hilos_de grupo w' =
             (hilos_de grupo w
              + if negb (grupo_activo g) && monitoreo_global w then 1 else 0)%nat).
Proof.
  intros Hg. split.
  - eexists. split; [reflexivity |]. split; [reflexivity |].
    unfold hilos_de. cbn. rewrite filter_app, length_app.
    rewrite contar_grupos_activos, Hg. reflexivity.
  - intros texto Hb Ht. unfold manejar_mensaje.
    assert (H1 : String.eqb texto "🟢 Iniciar todo" = false).
    { revert Hb. unfold es_boton_grupo.
      destruct (String.eqb_spec texto "🟢 Iniciar todo") as [-> |]; [discriminate | auto]. }
    assert (H2 : String.eqb texto "🔴 Detener todo" = false).
    { revert Hb. unfold es_boton_grupo.
      destruct (String.eqb_spec texto "🔴 Detener todo") as [-> |]; [discriminate | auto]. }
    rewrite H1, H2, Hb. cbv zeta. rewrite Ht, Hg. cbn.
    destruct (negb (grupo_activo g) && monitoreo_global w); eexists; (split; [reflexivity |]).
    + unfold hilos_de, lanzar_hilo. cbn [hilos con_hilos con_estados].
      rewrite filter_app, length_app. f_equal.
      rewrite filter_cons_True by reflexivity. reflexivity.
    + unfold hilos_de. cbn. lia.
Qed.

Lemma manejar_mensaje_lanza_hilos_witness :
  exists w',
    manejar_mensaje "🟢 Iniciar todo" dos_inicios.1 = Devuelve w'
    /\ hilos_de "cctv" w' = 3%nat.
Proof.
  destruct (manejar_mensaje_lanza_hilos dos_inicios.1 "cctv"
              {| grupo_activo := true;
                 estado_hosts := {["192.168.1.10" := estado_nuevo]} |} eq_refl)
    as [(w' & H1 & _ & H2) _].
  exists w'. split; [exact H1 | exact H2].
Defined.

(** C6 as stated fails: after two start commands two loops of a group run,
    and both pass the test of their loop. *)
Lemma un_hilo_por_grupo_contraejemplo :
  ~ (forall t d0 s grupo, alcanzable t d0 s -> (hilos_de grupo s.1 <= 1)%nat).
Proof.
  intros H.
  specialize (H tablas_ejemplo disco_vacio dos_inicios_en_ronda "cctv").
  assert (Hs : alcanzable tablas_ejemplo disco_vacio dos_inicios_en_ronda).
  { do 2 apply alcanzable_ejecutar. constructor. }
  specialize (H Hs). vm_compute in H. lia.
Qed.

(** ** The backup *)

(** C9.  When the snapshot exists, [guardar_hosts] first writes its content
    to the backup and then writes the dump of [hosts] over the snapshot;
    when it does not, the dump is the only write and the backup is left
    alone.  The dump depends on [hosts] alone, and no other file is
    touched. *)
Theorem guardar_hosts_respaldo w d :
  (forall previo,
     archivos d !! ARCHIVO_PERSISTENCIA = Some previo ->
     bitacora (guardar_hosts w d) =
       bitacora d ++ [Escribe ARCHIVO_RESPALDO previo;
                      Escribe ARCHIVO_PERSISTENCIA (JsonHosts (hosts w))]
     /\ archivos (guardar_hosts w d) !! ARCHIVO_RESPALDO = Some previo)
  /\ (archivos d !! ARCHIVO_PERSISTENCIA = None ->
      bitacora (guardar_hosts w d) =
        bitacora d ++ [Escribe ARCHIVO_PERSISTENCIA (JsonHosts (hosts w))]
      /\ archivos (guardar_hosts w d) !! ARCHIVO_RESPALDO = archivos d !! ARCHIVO_RESPALDO)
  /\ archivos (guardar_hosts w d) !! ARCHIVO_PERSISTENCIA = Some (JsonHosts (hosts w))
  /\ (forall ruta,
        ruta <> ARCHIVO_PERSISTENCIA -> ruta <> ARCHIVO_RESPALDO ->
        archivos (guardar_hosts w d) !! ruta = archivos d !! ruta)
  /\ (forall w', hosts w' = hosts w -> guardar_hosts w' d = guardar_hosts w d).
Proof.
  assert (Hne : ARCHIVO_PERSISTENCIA <> ARCHIVO_RESPALDO) by discriminate.
  unfold guardar_hosts.
  split; [| split; [| split; [| split]]].
  - intros previo ->. unfold escribir. cbn. split.
    + rewrite <- app_assoc. reflexivity.
    + rewrite lookup_insert_ne by exact Hne. apply lookup_insert_eq.
  - intros ->. unfold escribir. cbn. split; [reflexivity |].
    apply lookup_insert_ne. exact Hne.
  - destruct (archivos d !! ARCHIVO_PERSISTENCIA); unfold escribir; cbn;
      apply lookup_insert_eq.
  - intros ruta H1 H2.
    destruct (archivos d !! ARCHIVO_PERSISTENCIA); unfold escribir; cbn;
      rewrite !lookup_insert_ne by auto; reflexivity.
  - intros w' ->. reflexivity.
Qed.

Lemma guardar_hosts_respaldo_witness :
  bitacora (guardar_hosts sin_camara.1 disco_guardado) =
    bitacora disco_guardado
    ++ [Escribe ARCHIVO_RESPALDO (JsonHosts (hosts estado_ejemplo.1));
        Escribe ARCHIVO_PERSISTENCIA (JsonHosts (hosts sin_camara.1))]
  /\ archivos (guardar_hosts sin_camara.1 disco_guardado) !! ARCHIVO_RESPALDO
     = Some (JsonHosts (hosts estado_ejemplo.1)).
Proof.
  destruct (guardar_hosts_respaldo sin_camara.1 disco_guardado) as [H _].
  apply (H (JsonHosts (hosts estado_ejemplo.1))). reflexivity.
Defined.

(** ** Adding a host under another spelling of its address *)

(** C10.  When the entered text is not a key of the group but the printed
    form of the address it denotes is, [recibir_ip] does not report a
    duplicate, and the confirmed add stores the new name under the key that
    was there: the key set is unchanged, the old name is gone and the entry
    of the host is fresh. *)
Theorem agregar_host_reemplaza w d ud grupo hg crudo ip_addr viejo texto_nombre :
  claves_iguales w ->
  ud_grupo ud = Some grupo -> grupo <> "" ->
  hosts w !! grupo = Some hg ->
  Ipaddress.ip_address (Texto.strip crudo) = Some ip_addr ->
  Ipaddress.str ip_addr <> "" ->
  hg !! Texto.strip crudo = None ->
  hg !! Ipaddress.str ip_addr = Some viejo ->
  Texto.strip texto_nombre <> "" ->
  (String.length (Texto.strip texto_nombre) <= 50)%nat ->
  exists ud1 ud2 w',
    recibir_ip crudo ud w = Devuelve (NOMBRE, ud1)
    /\ recibir_nombre texto_nombre ud1 = (CONFIRMAR_AGREGAR, ud2)
    /\ confirmar_agregar "✅ Confirmar" ud2 w d = (END, w', guardar_hosts w' d)
    /\ hosts w' !! grupo = Some (<[Ipaddress.str ip_addr := Texto.strip texto_nombre]> hg)
    /\ dom (<[Ipaddress.str ip_addr := Texto.strip texto_nombre]> hg) = dom hg
    /\ Texto.strip crudo <> Ipaddress.str ip_addr
    /\ estado_de w' grupo (Ipaddress.str ip_addr) = Some estado_nuevo.
Proof.
  intros Hk Hud Hgne Hh Hip Hsne Hcrudo Hviejo Hnne Hlen.
  assert (Hv : forall s, s <> "" -> verdadero (Some s) = Some s).
  { intros s Hs. cbn. destruct (String.eqb_spec s ""); [contradiction | reflexivity]. }
  rewrite claves_iguales_alt in Hk. specialize (Hk grupo). rewrite Hh in Hk.
  destruct (estados w !! grupo) as [g|] eqn:Hg; [| contradiction].
  eexists; eexists; eexists.
  split.
  { unfold recibir_ip. rewrite Hip, Hud. cbn. rewrite Hh, Hcrudo. reflexivity. }
  split.
  { unfold recibir_nombre.
    destruct (String.eqb_spec (Texto.strip texto_nombre) ""); [contradiction |].
    destruct (Nat.ltb_spec 50 (String.length (Texto.strip texto_nombre))); [lia |].
    reflexivity. }
  split.
  { unfold confirmar_agregar. cbn [ud_grupo ud_ip ud_nombre].
    change (String.eqb "✅ Confirmar" "❌ Cancelar") with false.
    change (String.eqb "✅ Confirmar" "✅ Confirmar") with true. cbv iota.
    rewrite !Hv by auto.
    unfold agregar. rewrite Hh. cbn [estados con_hosts]. rewrite Hg. reflexivity. }
  cbn. split; [apply lookup_insert_eq |].
  split; [apply dom_insert_lookup_L; eauto |].
  split; [intros Heq; rewrite Heq in Hcrudo; congruence |].
  unfold estado_de. cbn. rewrite lookup_insert_eq. cbn. apply lookup_insert_eq.
Qed.

Lemma agregar_host_reemplaza_witness :
  exists ud1 ud2 w',
    recibir_ip "2001:DB8::1" ud_corporativo estado_ejemplo.1 = Devuelve (NOMBRE, ud1)
    /\ recibir_nombre "Otro" ud1 = (CONFIRMAR_AGREGAR, ud2)
    /\ confirmar_agregar "✅ Confirmar" ud2 estado_ejemplo.1 disco_vacio
       = (END, w', guardar_hosts w' disco_vacio)
    /\ hosts w' !! "corporativo"
       = Some (<["2001:db8::1" := "Otro"]> {["2001:db8::1" := "Router"]}).
Proof.
  destruct (agregar_host_reemplaza estado_ejemplo.1 disco_vacio ud_corporativo
              "corporativo" {["2001:db8::1" := "Router"]} "2001:DB8::1"
              (Ipaddress.IPv6Address [8193; 3512; 0; 0; 0; 0; 0; 1] None) "Router" "Otro")
    as (ud1 & ud2 & w' & H1 & H2 & H3 & H4 & _).
  - apply (alcanzable_claves_iguales tablas_ejemplo disco_vacio). constructor.
  - reflexivity.
  - discriminate.
  - reflexivity.
  - reflexivity.
  - discriminate.
  - reflexivity.
  - reflexivity.
  - discriminate.
  - vm_compute. lia.
  - exists ud1, ud2, w'. auto.
Defined.

(** ** The prober *)

Section Ping.
Import Prober.

(** What [ping] returns and what it lets through. *)
Lemma ping_resultado env ip :
  ping env ip =
  match Ipaddress.ip_address ip with
  | None => Devuelve false
  | Some a =>
      match subprocess_call env (command env "2000" ip a) with
      | Termina c => Devuelve (c =? 0)
      | Falla e => if capturada e then Devuelve false else Lanza e
      end
  end.
Proof. reflexivity. Qed.

(** A text that is not an address, a child that ends with a status other
    than 0 and an exception of the two caught classes all give [False]. *)
Lemma ping_falso env ip :
  (Ipaddress.ip_address ip = None -> ping env ip = Devuelve false)
  /\ (forall a c,
        Ipaddress.ip_address ip = Some a ->
        subprocess_call env (command env "2000" ip a) = Termina c -> c <> 0 ->
        ping env ip = Devuelve false)
  /\ (forall a e,
        Ipaddress.ip_address ip = Some a ->
        subprocess_call env (command env "2000" ip a) = Falla e -> capturada e = true ->
        ping env ip = Devuelve false).
Proof.
  rewrite ping_resultado. repeat split.
  - intros ->. reflexivity.
  - intros a c -> -> Hc. f_equal. apply Z.eqb_neq. exact Hc.
  - intros a e -> -> ->. reflexivity.
Qed.

(** C4.  On a platform where starting [ping6] fails with
    [FileNotFoundError], [ping] of an IPv6 address raises that exception to
    its caller, in [main.py] and in [main_alternative.py] alike. *)
Theorem ping_lanza :
  ping sin_ping6 "::1" = Lanza FileNotFoundError
  /\ ping_alternative sin_ping6 "::1" = Lanza FileNotFoundError.
Proof. split; reflexivity. Qed.

End Ping.
